(** * update_html.py: README table extraction and HTML injection

    A shallow embedding of [src/update_html.py] and of the parts of the
    Python library it calls ([str] methods, [re.search], [re.sub],
    [json.dumps]), followed by the properties of the two functions
    [parse_readme] and [update_index_html] and of the script body. *)

From Stdlib Require Import NArith Lia.
From stdpp Require Import base option list strings pretty gmap.

Set Default Proof Using "Type".

(** ** Text

    A Python [str] is a sequence of code points.  Files are opened in text
    mode with UTF-8 decoding, so the file store below holds the decoded
    text. *)

Definition char := N.
Definition pystr := list char.

(** ASCII literals of the source, as code points. *)
Definition str (s : string) : pystr :=
  map Ascii.N_of_ascii (String.list_ascii_of_string s).

Definition NL : char := 10%N.         (* '\n' *)
Definition DQ : char := 34%N.         (* the double quote *)
Definition BSL : char := 92%N.        (* the backslash *)
Definition PIPE : char := 124%N.      (* '|' *)

(** [str.isspace] on one code point, which is also the class [\s] of [re]
    on [str] patterns (both are [Py_UNICODE_ISSPACE]). *)
Definition isspace (c : char) : bool :=
  ((9 <=? c) && (c <=? 13) || (28 <=? c) && (c <=? 32)
   || (c =? 133) || (c =? 160) || (c =? 5760)
   || (8192 <=? c) && (c <=? 8202)
   || (c =? 8232) || (c =? 8233) || (c =? 8239) || (c =? 8287)
   || (c =? 12288))%N.

(** [s.lstrip()], [s.rstrip()], [s.strip()] *)
Fixpoint lstrip (s : pystr) : pystr :=
  match s with
  | c :: s' => if isspace c then lstrip s' else s
  | [] => []
  end.

Definition rstrip (s : pystr) : pystr := rev (lstrip (rev s)).

Definition strip (s : pystr) : pystr := rstrip (lstrip s).

(** [s.startswith(t)], [s.endswith(t)] *)
Fixpoint startswith (t s : pystr) : bool :=
  match t, s with
  | [], _ => true
  | a :: t', c :: s' => (a =? c)%N && startswith t' s'
  | _ :: _, [] => false
  end.

Definition endswith (t s : pystr) : bool := startswith (rev t) (rev s).

(** [t in s] *)
Fixpoint contains (t s : pystr) : bool :=
  startswith t s || match s with [] => false | _ :: s' => contains t s' end.

(** [s.split(sep)] for a separator of one character (both calls of the
    source pass one): the result is never empty. *)
Fixpoint split (sep : char) (s : pystr) : list pystr :=
  match s with
  | [] => [[]]
  | c :: s' =>
      if (c =? sep)%N then [] :: split sep s'
      else match split sep s' with
           | w :: ws => (c :: w) :: ws
           | [] => [[c]]
           end
  end.

(** [s.replace(old, new)] for a non-empty [old]: left to right, without
    overlap.  [skip] counts the characters of a replaced occurrence that
    are still to be passed over. *)
Fixpoint replace_from (old new : pystr) (skip : nat) (s : pystr) : pystr :=
  match s with
  | [] => []
  | c :: s' =>
      match skip with
      | S k => replace_from old new k s'
      | O => if startswith old s
             then new ++ replace_from old new (length old - 1) s'
             else c :: replace_from old new 0 s'
      end
  end.

Definition replace (old new s : pystr) : pystr := replace_from old new 0 s.

(** ** Regular expressions

    The four patterns of the source use literals, character classes,
    the quantifiers [*], [+], [*?] over one class, and capture groups.
    A pattern is the sequence of its items; [Mark (2k)] and [Mark (2k+1)]
    open and close group [k+1], as in the compiled form of [re]. *)

Inductive greed := Greedy | Lazy.

Inductive item :=
| One (f : char → bool)
| Rep (g : greed) (lo : nat) (f : char → bool)
| Mark (i : nat).

Definition regex := list item.

(** The marks passed so far, latest first: index and the input that was
    left when the mark was passed. *)
Definition marks := list (nat * pystr).

(** One quantified class with continuation [k]: first [lo] mandatory
    characters, then as many as possible first ([Greedy]) or as few as
    possible first ([Lazy]), backtracking into the alternatives in that
    order. *)
Fixpoint rep {R} (g : greed) (f : char → bool) (k : pystr → option R)
    (lo : nat) (s : pystr) {struct s} : option R :=
  match lo with
  | S lo' =>
      match s with
      | c :: s' => if f c then rep g f k lo' s' else None
      | [] => None
      end
  | O =>
      match g with
      | Greedy =>
          match s with
          | c :: s' =>
              if f c then
                match rep g f k 0 s' with
                | Some r => Some r
                | None => k s
                end
              else k s
          | [] => k s
          end
      | Lazy =>
          match k s with
          | Some r => Some r
          | None =>
              match s with
              | c :: s' => if f c then rep g f k 0 s' else None
              | [] => None
              end
          end
      end
  end.

(** The backtracking matcher at the head of [s]: the marks and the input
    left after the match that [re] selects, if any. *)
Fixpoint run (p : regex) (s : pystr) (ms : marks) : option (marks * pystr) :=
  match p with
  | [] => Some (ms, s)
  | One f :: p' =>
      match s with
      | c :: s' => if f c then run p' s' ms else None
      | [] => None
      end
  | Rep g lo f :: p' => rep g f (λ s', run p' s' ms) lo s
  | Mark i :: p' => run p' s ((i, s) :: ms)
  end.

(** The text between two inputs, the second a suffix of the first. *)
Definition between (a b : pystr) : pystr := take (length a - length b) a.

Fixpoint mark_at (i : nat) (ms : marks) : option pystr :=
  match ms with
  | [] => None
  | (j, s) :: ms' => if Nat.eqb i j then Some s else mark_at i ms'
  end.

(** [m.group(k)] of a match that began at input [s] and left [rest];
    a group that took no part gives the empty string in a replacement. *)
Definition group (s : pystr) (ms : marks) (rest : pystr) (k : nat) : pystr :=
  match k with
  | O => between s rest
  | S j =>
      match mark_at (2 * j) ms, mark_at (2 * j + 1) ms with
      | Some a, Some b => between a b
      | _, _ => []
      end
  end.

(** [re.search(p, s)]: the leftmost position with a match.  The result is
    the text before the match, and the marks and the input left after it
    ([s[m.end():]]). *)
Fixpoint search (p : regex) (s : pystr) : option (pystr * marks * pystr) :=
  match run p s [] with
  | Some (ms, rest) => Some ([], ms, rest)
  | None =>
      match s with
      | [] => None
      | c :: s' =>
          match search p s' with
          | Some (pre, ms, rest) => Some (c :: pre, ms, rest)
          | None => None
          end
      end
  end.

(** Pattern builders. *)
Definition lit (c : char) : item := One (N.eqb c).
Definition lits (s : string) : regex := map lit (str s).

(** [state.groups]: the number of capture groups of a pattern. *)
Fixpoint nmarks (p : regex) : nat :=
  match p with
  | [] => 0
  | Mark _ :: p' => S (nmarks p')
  | _ :: p' => nmarks p'
  end.

Definition ngroups (p : regex) : nat := nmarks p / 2.

(** *** Replacement templates ([re._parser.parse_template])

    A template is parsed into literal characters and group references;
    [None] stands for the [re.error] (or [IndexError]) that Python raises. *)

Inductive piece := Chr (c : char) | Grp (k : nat).

Definition is_digit (c : char) : bool := ((48 <=? c) && (c <=? 57))%N.
Definition is_octdigit (c : char) : bool := ((48 <=? c) && (c <=? 55))%N.
Definition is_ascii_letter (c : char) : bool :=
  ((65 <=? c) && (c <=? 90) || (97 <=? c) && (c <=? 122))%N.
Definition digit (c : char) : N := (c - 48)%N.

(** [ESCAPES] of [re._parser]: a b f n r t v and the backslash. *)
Definition escapes (c : char) : option char :=
  (if c =? 97 then Some 7 else if c =? 98 then Some 8
   else if c =? 102 then Some 12 else if c =? 110 then Some 10
   else if c =? 114 then Some 13 else if c =? 116 then Some 9
   else if c =? 118 then Some 11 else if c =? 92 then Some 92
   else None)%N.

Definition addgroup (groups : nat) (index : N) : option (list piece) :=
  if (N.of_nat groups <? index)%N then None else Some [Grp (N.to_nat index)].

Fixpoint getuntil (stop : char) (s : pystr) : option pystr :=
  match s with
  | [] => None
  | c :: s' => if (c =? stop)%N then Some []
               else match getuntil stop s' with
                    | Some w => Some (c :: w)
                    | None => None
                    end
  end.

Definition decimal (name : pystr) : N :=
  fold_left (λ acc c, acc * 10 + digit c)%N name 0%N.

(** The token at the head of a non-empty template: its pieces and the
    number of characters it takes.  The patterns of the source have no
    named groups, so [\g<name>] with an identifier raises; of the other
    names only plain ASCII decimals are taken as an index. *)
Definition token (groups : nat) (s : pystr) : option (list piece * nat) :=
  match s with
  | [] => None
  | c :: s1 =>
      if negb (c =? BSL)%N then Some ([Chr c], 1)
      else
        match s1 with
        | [] => None
        | c1 :: s2 =>
            if (c1 =? 103)%N then
              match s2 with
              | lt :: s3 =>
                  if (lt =? 60)%N then
                    match getuntil 62%N s3 with
                    | Some name =>
                        if forallb is_digit name && negb (Nat.eqb (length name) 0)
                        then ps ← addgroup groups (decimal name);
                             Some (ps, 4 + length name)
                        else None
                    | None => None
                    end
                  else None
              | [] => None
              end
            else if (c1 =? 48)%N then
              match s2 with
              | d1 :: s3 =>
                  if is_octdigit d1 then
                    match s3 with
                    | d2 :: _ =>
                        if is_octdigit d2
                        then Some ([Chr (N.land (digit d1 * 8 + digit d2) 255)], 4)
                        else Some ([Chr (digit d1)], 3)
                    | [] => Some ([Chr (digit d1)], 3)
                    end
                  else Some ([Chr 0%N], 2)
              | [] => Some ([Chr 0%N], 2)
              end
            else if is_digit c1 then
              match s2 with
              | d1 :: s3 =>
                  if is_digit d1 then
                    match s3 with
                    | d2 :: _ =>
                        if is_octdigit c1 && is_octdigit d1 && is_octdigit d2 then
                          let v := (digit c1 * 64 + digit d1 * 8 + digit d2)%N in
                          if (255 <? v)%N then None else Some ([Chr v], 4)
                        else ps ← addgroup groups (digit c1 * 10 + digit d1)%N;
                             Some (ps, 3)
                    | [] => ps ← addgroup groups (digit c1 * 10 + digit d1)%N;
                            Some (ps, 3)
                    end
                  else ps ← addgroup groups (digit c1); Some (ps, 2)
              | [] => ps ← addgroup groups (digit c1); Some (ps, 2)
              end
            else
              match escapes c1 with
              | Some e => Some ([Chr e], 2)
              | None => if is_ascii_letter c1 then None
                        else Some ([Chr BSL; Chr c1], 2)
              end
        end
  end.

(** [skip] counts the characters of the last token still to be passed. *)
Fixpoint parse_template_from (groups skip : nat) (s : pystr) : option (list piece) :=
  match s with
  | [] => Some []
  | _ :: s' =>
      match skip with
      | S k => parse_template_from groups k s'
      | O =>
          '(ps, n) ← token groups s;
          tl ← parse_template_from groups (n - 1) s';
          Some (ps ++ tl)
      end
  end.

Definition parse_template (groups : nat) (repl : pystr) : option (list piece) :=
  parse_template_from groups 0 repl.

(** [expand_template] *)
Definition expand (tpl : list piece) (s : pystr) (ms : marks) (rest : pystr) : pystr :=
  flat_map (λ x, match x with Chr c => [c] | Grp k => group s ms rest k end) tpl.

(** *** [re.sub]

    All matches from left to right, without overlap, each replaced by
    the expanded template.  [skip] counts the characters of the last match
    still to be passed over; an empty match is replaced and the scan moves
    on by one character. *)
Fixpoint sub_from (p : regex) (tpl : list piece) (skip : nat) (s : pystr) : pystr :=
  match skip with
  | S k => match s with [] => [] | _ :: s' => sub_from p tpl k s' end
  | O =>
      match run p s [] with
      | Some (ms, rest) =>
          expand tpl s ms rest ++
          match s with
          | [] => []
          | c :: s' =>
              match length s - length rest with
              | O => c :: sub_from p tpl 0 s'
              | S n => sub_from p tpl n s'
              end
          end
      | None =>
          match s with
          | [] => []
          | c :: s' => c :: sub_from p tpl 0 s'
          end
      end
  end.

(** [re.sub(p, repl, s)]; [None] when the template does not parse. *)
Definition re_sub (p : regex) (repl s : pystr) : option pystr :=
  tpl ← parse_template (ngroups p) repl; Some (sub_from p tpl 0 s).

(** With [re.IGNORECASE], a literal [p] of the pattern against a
    character [c] of the input, for an ASCII [p] (the header pattern has
    no others): a letter matches both of its cases, and [i], [s], [k] also
    match U+0130 and U+0131, U+017F, U+212A. *)
Definition eq_ignorecase (p c : char) : bool :=
  (let lo := if (65 <=? p) && (p <=? 90) then p + 32 else p in
   if (97 <=? lo) && (lo <=? 122) then
     (c =? lo) || (c =? lo - 32)
     || (lo =? 105) && ((c =? 304) || (c =? 305))
     || (lo =? 115) && (c =? 383)
     || (lo =? 107) && (c =? 8490)
   else c =? p)%N.

Definition lits_i (s : string) : regex := map (λ c, One (eq_ignorecase c)) (str s).

(** [\s*], [\s+], [.], [[\s\S]] *)
Definition ws_star : item := Rep Greedy 0 isspace.
Definition ws_plus : item := Rep Greedy 1 isspace.
Definition dot (c : char) : bool := negb (c =? NL)%N.
Definition any (c : char) : bool := isspace c || negb (isspace c).

(** ** JSON ([json.dumps(data, indent=4)], with [ensure_ascii]) *)

Definition hex_digit (n : N) : char := (if n <? 10 then 48 + n else 87 + n)%N.

Definition hex4 (n : N) : pystr :=
  [hex_digit (n / 4096 mod 16); hex_digit (n / 256 mod 16);
   hex_digit (n / 16 mod 16); hex_digit (n mod 16)]%N.

Definition u_escape (n : N) : pystr := BSL :: 117%N :: hex4 n.

Definition encode_char (c : char) : pystr :=
  (if c =? 34 then [BSL; 34] else if c =? 92 then [BSL; 92]
   else if c =? 10 then [BSL; 110] else if c =? 13 then [BSL; 114]
   else if c =? 9 then [BSL; 116] else if c =? 8 then [BSL; 98]
   else if c =? 12 then [BSL; 102]
   else if (32 <=? c) && (c <=? 126) then [c]
   else if c <? 65536 then u_escape c
   else let n := c - 65536 in
        u_escape (N.lor 55296 (N.land (N.shiftr n 10) 1023))
        ++ u_escape (N.lor 56320 (N.land n 1023)))%N.

Definition encode_basestring_ascii (s : pystr) : pystr :=
  DQ :: flat_map encode_char s ++ [DQ].

Fixpoint join (sep : pystr) (l : list pystr) : pystr :=
  match l with
  | [] => []
  | [x] => x
  | x :: l' => x ++ sep ++ join sep l'
  end.

(** One table row: the dict built at lines 91-99, its keys in insertion
    order. *)
Record entry := {
  time : pystr;
  venue : pystr;
  paper : pystr;
  question : pystr;
  method : pystr;
  remark : pystr;
  bib : pystr
}.

Definition keyed (k : string) (v : pystr) : pystr :=
  DQ :: str k ++ [DQ] ++ str ": " ++ encode_basestring_ascii v.

Definition dump_entry (e : entry) : pystr :=
  str "{" ++ NL :: str "        "
  ++ join (str "," ++ NL :: str "        ")
       [keyed "time" (time e); keyed "venue" (venue e); keyed "paper" (paper e);
        keyed "question" (question e); keyed "method" (method e);
        keyed "remark" (remark e); keyed "bib" (bib e)]
  ++ NL :: str "    " ++ str "}".

Definition dumps (data : list entry) : pystr :=
  match data with
  | [] => str "[]"
  | _ => str "[" ++ NL :: str "    "
         ++ join (str "," ++ NL :: str "    ") (map dump_entry data)
         ++ [NL] ++ str "]"
  end.

(** ** The program *)

(** The files (path to decoded text) and the lines printed so far. *)
Record world := {
  files : gmap string pystr;
  stdout : list string
}.

Definition print (line : string) (w : world) : world :=
  {| files := files w; stdout := stdout w ++ [line] |}.

(** [open(path, "w")] followed by [f.write(text)] *)
Definition write (path : string) (text : pystr) (w : world) : world :=
  {| files := <[path := text]> (files w); stdout := stdout w |}.

(** Line 19, compiled with [re.IGNORECASE]. *)
Definition header_pattern : regex :=
  lits_i "|" ++ [ws_star] ++ lits_i "Time" ++ [ws_star]
  ++ lits_i "|" ++ [ws_star] ++ lits_i "Venue" ++ [ws_star]
  ++ lits_i "|" ++ [ws_star] ++ lits_i "Paper" ++ [ws_star]
  ++ lits_i "|" ++ [ws_star] ++ lits_i "Research Question/Idea" ++ [ws_star]
  ++ lits_i "|" ++ [ws_star] ++ lits_i "Method" ++ [ws_star]
  ++ lits_i "|" ++ [ws_star] ++ lits_i "Remark" ++ [ws_star]
  ++ lits_i "|" ++ [ws_star] ++ lits_i "Bib" ++ [ws_star]
  ++ lits_i "|".

(** Line 65: [\[(.*?)\]\((.*?)\)] and its replacement. *)
Definition link_pattern : regex :=
  lits "[" ++ [Mark 0; Rep Lazy 0 dot; Mark 1] ++ lits "]("
  ++ [Mark 2; Rep Lazy 0 dot; Mark 3] ++ lits ")".

Definition link_repl : pystr :=
  str "<a href=" ++ [DQ] ++ str "\2" ++ [DQ] ++ str ">\1</a>".

(** Lines 79 and 82: [\*\*(.*?)\*\*] and its replacement. *)
Definition bold_pattern : regex :=
  lits "**" ++ [Mark 0; Rep Lazy 0 dot; Mark 1] ++ lits "**".

Definition bold_repl : pystr := str "<strong>\1</strong>".

(** Line 120: group 1 is [const\s+data\s*=\s*], followed by
    [\[], the lazy [[\s\S]*?] and [\];]. *)
Definition data_pattern : regex :=
  [Mark 0] ++ lits "const" ++ [ws_plus] ++ lits "data" ++ [ws_star]
  ++ lits "=" ++ [ws_star] ++ [Mark 1]
  ++ lits "[" ++ [Rep Lazy 0 any] ++ lits "];".

(** [cols[i]], read only under the guard [len(cols) >= 6] (and
    [len(cols) > 6] for index 6), which keeps it in range. *)
Definition cell (cols : list pystr) (i : nat) : pystr := default [] (cols !! i).

(** The loop of lines 38-100 over the remaining lines, [data] being the
    list built so far.  [None] stands for an exception of [re.sub]. *)
Fixpoint rows (lines : list pystr) (data : list entry) : option (list entry) :=
  match lines with
  | [] => Some data
  | line :: lines' =>
      let line := strip line in
      if negb (startswith (str "|") line) then rows lines' data  (* continue *)
      else if negb (startswith (str "|") line) then Some data    (* break *)
      else
        let line := if startswith (str "|") line then drop 1 line else line in
        let line := if endswith (str "|") line
                    then take (length line - 1) line else line in
        let cols := map strip (split PIPE line) in
        if 6 <=? length cols then
          let paper_md := cell cols 2 in
          paper_html ← re_sub link_pattern link_repl paper_md;
          let method_md := cell cols 4 in
          let question_md := cell cols 3 in
          question_html ← re_sub bold_pattern bold_repl question_md;
          method_html ← re_sub bold_pattern bold_repl method_md;
          let remark_md := cell cols 5 in
          let bib_md := if 6 <? length cols then cell cols 6 else [] in
          rows lines'
            (data ++ [{| time := cell cols 0; venue := cell cols 1;
                         paper := paper_html; question := question_html;
                         method := method_html; remark := remark_md;
                         bib := bib_md |}])
        else rows lines' data
  end.

(** [parse_readme]: the entries and the world after the call. *)
Definition parse_readme (readme_path : string) (w : world)
    : option (list entry * world) :=
  match files w !! readme_path with
  | None => Some ([], print ("Error: " +:+ readme_path +:+ " not found.") w)
  | Some content =>
      match search header_pattern content with
      | None =>
          Some ([], print "Error: Could not find the table header in README.md" w)
      | Some (_, _, table_content) =>
          let lines := split NL (strip table_content) in
          let line0 := default [] (head lines) in
          let start_idx :=
            if startswith (str "|") (strip line0) && contains (str "---") line0
            then 1 else 0 in
          data ← rows (drop start_idx lines) [];
          Some (data, w)
      end
  end.

(** [update_index_html]: the world after the call. *)
Definition update_index_html (data : list entry) (html_path : string) (w : world)
    : option world :=
  match files w !! html_path with
  | None => Some (print ("Error: " +:+ html_path +:+ " not found.") w)
  | Some html_content =>
      let new_data_json := dumps data in
      match search data_pattern html_content with
      | None =>
          Some (print "Error: Could not find 'const data = [...]' in index.html" w)
      | Some _ =>
          let new_data_json_escaped := replace [BSL] [BSL; BSL] new_data_json in
          new_html_content ←
            re_sub data_pattern
              (str "\1" ++ new_data_json_escaped ++ str ";") html_content;
          Some (print ("Successfully updated " +:+ html_path +:+ " with "
                       +:+ pretty (length data) +:+ " entries.")
                  (write html_path new_html_content w))
      end
  end.

(** The script body, lines 139-142. *)
Definition main (w : world) : option world :=
  '(entries, w) ← parse_readme "README.md" w;
  match entries with
  | [] => Some w
  | _ :: _ => update_index_html entries "index.html" w
  end.

(** * Notions used in the properties *)

(** The strings a pattern matches, whichever way its quantifiers are
    resolved. *)
Fixpoint Lang (p : regex) (m : pystr) : Prop :=
  match p with
  | [] => m = []
  | One f :: p' => ∃ c m', m = c :: m' ∧ f c = true ∧ Lang p' m'
  | Rep _ lo f :: p' =>
      ∃ w m', m = w ++ m' ∧ lo ≤ length w ∧ forallb f w = true ∧ Lang p' m'
  | Mark _ :: p' => Lang p' m
  end.

(** A match of [p] begins at the head of [s]. *)
Definition starts (p : regex) (s : pystr) : Prop :=
  ∃ m rest, s = m ++ rest ∧ Lang p m.

(** A match of [p] occurs somewhere in [s]. *)
Definition occurs (p : regex) (s : pystr) : Prop :=
  ∃ pre m post, s = pre ++ m ++ post ∧ Lang p m.

(** Group 1 of [data_pattern]: [const], white space, [data], optional
    white space, [=], optional white space. *)
Definition assignment (w1 w2 w3 : pystr) : pystr :=
  str "const" ++ w1 ++ str "data" ++ w2 ++ str "=" ++ w3.

(** No match begins inside [g] when [ctx] follows it. *)
Definition quiet (p : regex) (g ctx : pystr) : Prop :=
  ∀ a b, g = a ++ b → b ≠ [] → ¬ starts p (b ++ ctx).

(** A check of [quiet] by running the matcher at every position. *)
Fixpoint quietb (p : regex) (g ctx : pystr) : bool :=
  match g with
  | [] => true
  | c :: g' =>
      match run p (g ++ ctx) [] with
      | Some _ => false
      | None => quietb p g' ctx
      end
  end.

Definition double_backslash (c : char) : pystr :=
  if (c =? BSL)%N then [BSL; BSL] else [c].

(** The compiled template of line 132. *)
Definition data_template (data : list entry) : list piece :=
  Grp 1 :: map Chr (dumps data ++ str ";").

Definition success (html_path : string) (data : list entry) : string :=
  "Successfully updated " +:+ html_path +:+ " with "
  +:+ pretty (length data) +:+ " entries.".

(** ** Texts as gaps and spans

    A text seen as the scan of [re.sub] sees it: gaps and spans in turn,
    then a tail.  [old] gives the text of a span, [ok] says that a span is
    what the pattern takes and no more. *)
Fixpoint document {A} (f : A → pystr) (segs : list (pystr * A)) (tail : pystr)
    : pystr :=
  match segs with
  | [] => tail
  | (g, x) :: segs' => g ++ f x ++ document f segs' tail
  end.

(** The spans are those that a scan from left to right meets: no match
    begins inside a gap, and none occurs in the tail. *)
Fixpoint scanned_by {A} (p : regex) (ok : A → Prop) (old : A → pystr)
    (segs : list (pystr * A)) (tail : pystr) : Prop :=
  match segs with
  | [] => ¬ occurs p tail
  | (g, x) :: segs' =>
      quiet p g (old x ++ document old segs' tail)
      ∧ ok x ∧ scanned_by p ok old segs' tail
  end.

(** ** The HTML document as gaps and statements

    A statement [const data = [ ... ];] with its three runs of white space
    and the text of its array, which stops at the first ["];"]. *)
Record statement := {
  sp1 : pystr;
  sp2 : pystr;
  sp3 : pystr;
  array : pystr
}.

Definition statement_ok (st : statement) : Prop :=
  forallb isspace (sp1 st) = true ∧ sp1 st ≠ [] ∧
  forallb isspace (sp2 st) = true ∧ forallb isspace (sp3 st) = true ∧
  contains (str "];") (array st) = false.

Definition prefix_of (st : statement) : pystr :=
  assignment (sp1 st) (sp2 st) (sp3 st).

(** The statement as it stands in the document, and as it stands after
    the injection of [json]. *)
Definition old_text (st : statement) : pystr :=
  prefix_of st ++ str "[" ++ array st ++ str "];".

Definition new_text (json : pystr) (st : statement) : pystr :=
  prefix_of st ++ json ++ str ";".

Definition scanned : list (pystr * statement) → pystr → Prop :=
  scanned_by data_pattern statement_ok old_text.

(** A document that holds a statement, in plain terms. *)
Definition has_statement (html : pystr) : Prop :=
  ∃ pre w1 w2 w3 b post,
    forallb isspace w1 = true ∧ w1 ≠ [] ∧
    forallb isspace w2 = true ∧ forallb isspace w3 = true ∧
    html = pre ++ assignment w1 w2 w3 ++ str "[" ++ b ++ str "];" ++ post.

Definition rebody (j : pystr) (segs : list (pystr * statement))
    : list (pystr * statement) :=
  map (λ '(g, st), (g, {| sp1 := sp1 st; sp2 := sp2 st; sp3 := sp3 st;
                          array := j |})) segs.

(** One record whose remark holds ["];"], and a document to inject it
    into twice. *)
Definition rerun_data : list entry :=
  [{| time := str "2024"; venue := str "ICML"; paper := str "P";
      question := str "Q"; method := str "M"; remark := str "a[0];";
      bib := [] |}].

Definition rerun_world : world :=
  {| files := {[ "index.html" := str "const data = [];" ]}; stdout := [] |}.

Definition rerun_first : pystr := str "const data = " ++ dumps rerun_data ++ str ";".

Definition rerun_leftover : pystr :=
  [DQ] ++ str "," ++ [NL] ++ str "        " ++ [DQ] ++ str "bib" ++ [DQ]
  ++ str ": " ++ [DQ; DQ; NL] ++ str "    }" ++ [NL] ++ str "];".

(** Whether the trimmed line begins with the delimiter (lines 39-40). *)
Definition is_row (line : pystr) : bool := startswith (str "|") (strip line).

(** The cells of a line (lines 39 and 54-57): trimmed, one leading and one
    trailing delimiter removed, split on the delimiter, each cell
    trimmed. *)
Definition cells (line : pystr) : list pystr :=
  let line := strip line in
  let line := if startswith (str "|") line then drop 1 line else line in
  let line := if endswith (str "|") line then take (length line - 1) line else line in
  map strip (split PIPE line).

(** The compiled replacement templates. *)
Definition link_template : list piece :=
  map Chr (str "<a href=" ++ [DQ]) ++ [Grp 2] ++ map Chr ([DQ] ++ str ">")
  ++ [Grp 1] ++ map Chr (str "</a>").

Definition bold_template : list piece :=
  map Chr (str "<strong>") ++ [Grp 1] ++ map Chr (str "</strong>").

Definition linkify (s : pystr) : pystr := sub_from link_pattern link_template 0 s.
Definition embolden (s : pystr) : pystr := sub_from bold_pattern bold_template 0 s.

(** The record built from the cells of a row (lines 64-99). *)
Definition entry_of (cols : list pystr) : entry :=
  {| time := cell cols 0; venue := cell cols 1;
     paper := linkify (cell cols 2);
     question := embolden (cell cols 3);
     method := embolden (cell cols 4);
     remark := cell cols 5;
     bib := if 6 <? length cols then cell cols 6 else [] |}.

(** What one line adds to the output. *)
Definition row_entries (line : pystr) : list entry :=
  if is_row line && (6 <=? length (cells line))
  then [entry_of (cells line)] else [].

(** The lines that the loop goes over (lines 30-38): the text after the
    header, trimmed and split, without its first line when that is a
    separator row. *)
Definition data_lines (table_content : pystr) : list pystr :=
  let lines := split NL (strip table_content) in
  let line0 := default [] (head lines) in
  drop (if startswith (str "|") (strip line0) && contains (str "---") line0
        then 1 else 0) lines.

(** Lines of ASCII text joined by newlines, for the examples. *)
Definition text (lines : list string) : pystr := join [NL] (map str lines).

(** A README with a data row, a blank line and a heading, and then a
    second table-like row. *)
Definition interrupted_readme : pystr :=
  text ["# Papers";
        "| Time | Venue | Paper | Research Question/Idea | Method | Remark | Bib |";
        "| --- | --- | --- | --- | --- | --- | --- |";
        "| 2024 | A | P1 | Q1 | M1 | R1 | B1 |";
        "";
        "## Notes";
        "| 2025 | B | P2 | Q2 | M2 | R2 | B2 |"].

Definition interrupted_world : world :=
  {| files := {[ "README.md" := interrupted_readme ]}; stdout := [] |}.

(** A Markdown link [[label](url)]: the label runs up to the first ["]("],
    the URL up to the first [")"], both within one line. *)
Record link := {
  label : pystr;
  url : pystr
}.

Definition link_ok (k : link) : Prop :=
  forallb dot (label k) = true ∧ contains (str "](") (label k) = false ∧
  forallb dot (url k) = true ∧ contains (str ")") (url k) = false.

Definition link_md (k : link) : pystr :=
  str "[" ++ label k ++ str "](" ++ url k ++ str ")".

Definition link_html (k : link) : pystr :=
  str "<a href=" ++ [DQ] ++ url k ++ [DQ] ++ str ">" ++ label k ++ str "</a>".

(** A bold span [**text**]: the text runs up to the first ["**"], within
    one line. *)
Definition bold_ok (t : pystr) : Prop :=
  forallb dot t = true ∧ contains (str "**") (t ++ str "*") = false.

Definition bold_md (t : pystr) : pystr := str "**" ++ t ++ str "**".

Definition bold_html (t : pystr) : pystr := str "<strong>" ++ t ++ str "</strong>".

Definition sample_entry : entry :=
  {| time := str "2024"; venue := str "ICML"; paper := str "P";
     question := str "Q"; method := str "M";
     remark := [233; 92; 128512]%N; bib := [] |}.

Definition sample_html : pystr :=
  text ["<script>"; "const data = [1, 2];"; "</script>"].

Definition sample_world : world :=
  {| files := {[ "index.html" := sample_html ]}; stdout := [] |}.

Definition sample_marks : marks :=
  Eval vm_compute in
    match search data_pattern sample_html with
    | Some (_, ms, _) => ms
    | None => []
    end.

Definition bare_world : world :=
  {| files := {[ "index.html" := str "const data = [1, 2]" ]}; stdout := [] |}.

Definition two_statements : list (pystr * statement) :=
  [(str "<script>" ++ [NL],
    {| sp1 := str " "; sp2 := str " "; sp3 := str " "; array := str "1" |});
   ([NL],
    {| sp1 := str "  "; sp2 := []; sp3 := []; array := NL :: str "2" |})].

Definition two_statements_world : world :=
  {| files := {[ "index.html" :=
                  text ["<script>"; "const data = [1];"; "const  data=[";
                        "2];"; "</script>"] ]};
     stdout := [] |}.

Definition plain_entry : entry :=
  {| time := str "2024"; venue := str "ICML"; paper := str "P";
     question := str "Q"; method := str "M"; remark := str "ok"; bib := [] |}.

Definition headless_world : world :=
  {| files := {[ "README.md" :=
                  text ["# Papers"; "| Time | Venue | Paper |"; "| a | b | c |"];
                 "index.html" := sample_html ]};
     stdout := [] |}.

Definition short_row_readme : pystr :=
  text ["| Time | Venue | Paper | Research Question/Idea | Method | Remark | Bib |";
        "| --- | --- | --- | --- | --- | --- | --- |";
        "| a | b | c | d | e |";
        "| 2024 | V | P | Q | M | R | B |"].

Definition short_row_world : world :=
  {| files := {[ "README.md" := short_row_readme ]}; stdout := [] |}.

Definition short_row_marks : marks :=
  Eval vm_compute in
    match search header_pattern short_row_readme with
    | Some (_, ms, _) => ms
    | None => []
    end.

Definition six_cells_rest : pystr :=
  text [""; "| --- | --- | --- | --- | --- | --- | --- |";
        "| a | b | c | d | e | f |"; "| 2024 | V | P | Q | M | R | B |"].

Definition six_cells_readme : pystr :=
  str "| Time | Venue | Paper | Research Question/Idea | Method | Remark | Bib |"
  ++ six_cells_rest.

Definition six_cells_world : world :=
  {| files := {[ "README.md" := six_cells_readme ]}; stdout := [] |}.

Definition short_row_rest : pystr :=
  text [""; "| --- | --- | --- | --- | --- | --- | --- |";
        "| a | b | c | d | e |"; "| 2024 | V | P | Q | M | R | B |"].

Definition two_links : list (pystr * link) :=
  [(str "see ", {| label := str "A"; url := str "u" |});
   (str " and ", {| label := str "B"; url := str "v" |})].

Definition two_links_line : pystr :=
  str "| 2024 | V | see [A](u) and [B](v). | q | m | r |".

Definition bold_line : pystr :=
  str "| 2024 | V | P | why **this** works | **M** and **N** | r | b |".

(** Whether a line gives a record: it begins with the delimiter and has
    at least six cells. *)
Definition gives_record (line : pystr) : bool :=
  is_row line && (6 <=? length (cells line)).

(** A newline or a printable ASCII character. *)
Definition plain (c : char) : bool :=
  ((c =? 10) || (32 <=? c) && (c <=? 126))%N.

Definition header_names : list string :=
  ["Time"; "Venue"; "Paper"; "Research Question/Idea"; "Method"; "Remark"; "Bib"].

(** One column of the header pattern: the delimiter, white space, the
    name, white space. *)
Definition column (n : string) : regex :=
  lits_i "|" ++ [ws_star] ++ lits_i n ++ [ws_star].

(** [t] is [p] up to letter case, as [re.IGNORECASE] compares. *)
Fixpoint matches_i (p t : pystr) : bool :=
  match p, t with
  | [], [] => true
  | a :: p', c :: t' => eq_ignorecase a c && matches_i p' t'
  | _, _ => false
  end.

(** One column as written in a README. *)
Record header_cell := {
  space_before : pystr;
  written_name : pystr;
  space_after : pystr
}.

Definition header_cell_ok (n : string) (c : header_cell) : Prop :=
  forallb isspace (space_before c) = true
  ∧ matches_i (str n) (written_name c) = true
  ∧ forallb isspace (space_after c) = true.

Definition header_cell_text (c : header_cell) : pystr :=
  str "|" ++ space_before c ++ written_name c ++ space_after c.

Definition header_text (cols : list header_cell) : pystr :=
  flat_map header_cell_text cols ++ str "|".

(** A header row: seven cells with the seven names in order, closed by
    the delimiter. *)
Definition header_row (m : pystr) : Prop :=
  ∃ cols, Forall2 header_cell_ok header_names cols ∧ m = header_text cols.

(** A text without surrounding white space and without the delimiter. *)
Definition clean (c : pystr) : Prop :=
  strip c = c ∧ forallb (λ x, negb (x =? PIPE)%N) c = true.

Definition not_semicolon (c : char) : bool := negb (c =? 59)%N.

Definition no_semicolon (s : pystr) : bool := forallb not_semicolon s.

Definition entry_no_semicolon (e : entry) : Prop :=
  no_semicolon (time e) = true ∧ no_semicolon (venue e) = true
  ∧ no_semicolon (paper e) = true ∧ no_semicolon (question e) = true
  ∧ no_semicolon (method e) = true ∧ no_semicolon (remark e) = true
  ∧ no_semicolon (bib e) = true.

Definition no_rows_rest : pystr :=
  text [""; "| --- | --- | --- | --- | --- | --- | --- |";
        "| a | b | c |"; ""; "Nothing yet."].

Definition no_rows_readme : pystr :=
  str "| Time | Venue | Paper | Research Question/Idea | Method | Remark | Bib |"
  ++ no_rows_rest.

Definition no_rows_world : world :=
  {| files := {[ "README.md" := no_rows_readme; "index.html" := sample_html ]};
     stdout := [] |}.

Definition full_world : world :=
  {| files := {[ "README.md" := short_row_readme;
                 "index.html" :=
                   text ["<script>"; "const data = [1];"; "const  data=[";
                         "2];"; "</script>"] ]};
     stdout := [] |}.

(** [full_world] after the script. *)
Definition full_world_after : world :=
  let data := flat_map row_entries (data_lines short_row_rest) in
  print (success "index.html" data)
    (write "index.html"
       (document (new_text (dumps data)) two_statements (NL :: str "</script>"))
       full_world).

Definition dashes_rest : pystr :=
  text [""; "| 2023 | A | P0 | Q0 | M0 | pre---print | B0 |";
        "| 2024 | B | P1 | Q1 | M1 | R1 | B1 |"].

Definition dashes_readme : pystr :=
  str "| Time | Venue | Paper | Research Question/Idea | Method | Remark | Bib |"
  ++ dashes_rest.

Definition dashes_world : world :=
  {| files := {[ "README.md" := dashes_readme ]}; stdout := [] |}.

(** * Properties *)

(** ** Text lemmas *)

Lemma startswith_app (t s : pystr) : startswith t (t ++ s) = true.
Proof.
  induction t as [|a t IH]; simpl; [done|].
  by rewrite N.eqb_refl.
Qed.

Lemma startswith_true (t s : pystr) :
  startswith t s = true ↔ ∃ r, s = t ++ r.
Proof.
  split.
  - revert s. induction t as [|a t IH]; intros s H; simpl in *.
    + by exists s.
    + destruct s as [|c s]; [done|].
      apply andb_prop in H as [Hc Ht]. apply N.eqb_eq in Hc as ->.
      destruct (IH _ Ht) as [r ->]. by exists r.
  - intros [r ->]. apply startswith_app.
Qed.

Lemma between_app (m rest : pystr) : between (m ++ rest) rest = m.
Proof.
  unfold between. rewrite length_app.
  replace (length m + length rest - length rest) with (length m) by lia.
  by rewrite take_app_length.
Qed.

(** [contains t s = false]: no suffix of [s] begins with [t]. *)
Lemma contains_false (t s : pystr) :
  contains t s = false ↔ ∀ a b, s = a ++ b → startswith t b = false.
Proof.
  split.
  - induction s as [|c s IH]; intros H a b E.
    + symmetry in E. apply app_eq_nil in E as [-> ->].
      simpl in H. by apply orb_false_elim in H as [H _].
    + simpl in H. apply orb_false_elim in H as [H1 H2].
      destruct a as [|c' a]; simpl in E.
      * by subst b.
      * injection E as -> ->. by eapply IH.
  - induction s as [|c s IH]; intros H; simpl.
    + rewrite (H [] []); done.
    + rewrite (H [] (c :: s)); [|done]. simpl. apply IH.
      intros a b ->. by apply (H (c :: a) b).
Qed.

Lemma contains_app_l (t a b : pystr) :
  contains t (a ++ b) = false → contains t a = false.
Proof.
  induction a as [|c a IH]; simpl.
  - destruct t as [|x t]; simpl; [|done].
    destruct b; simpl; intros; done.
  - intros H. apply orb_false_elim in H as [H1 H2].
    rewrite (IH H2), orb_false_r.
    destruct (startswith t (c :: a)) eqn:E; [|done].
    apply startswith_true in E as [r E].
    rewrite <- H1. symmetry. apply startswith_true.
    exists (r ++ b). by rewrite app_assoc, <- E.
Qed.

Lemma contains_app_r (t a b : pystr) :
  contains t (a ++ b) = false → contains t b = false.
Proof.
  intros H. apply contains_false. intros x y ->.
  rewrite contains_false in H. apply (H (a ++ x) y). by rewrite app_assoc.
Qed.

(** ** The matcher against the language of a pattern *)

Section Rep.
Context {R : Type} (g : greed) (f : char → bool) (k : pystr → option R).

Lemma rep_sound lo s r :
  rep g f k lo s = Some r →
  ∃ w s', s = w ++ s' ∧ lo ≤ length w ∧ forallb f w = true ∧ k s' = Some r.
Proof.
  revert lo. induction s as [|c s IH]; intros lo H.
  - destruct lo; simpl in H; [|done].
    exists [], []. repeat split; [done|].
    destruct g; simpl in H; [done|]. by destruct (k []).
  - destruct lo as [|lo]; simpl in H.
    + destruct g.
      * destruct (f c) eqn:Hf; [|by exists [], (c :: s)].
        destruct (rep Greedy f k 0 s) eqn:Hr; [|by exists [], (c :: s)].
        injection H as ->. destruct (IH _ Hr) as (w & s' & -> & _ & Hw & Hk).
        exists (c :: w), s'. simpl. rewrite Hf. repeat split; [lia|done..].
      * destruct (k (c :: s)) eqn:Hk0.
        { injection H as ->. by exists [], (c :: s). }
        destruct (f c) eqn:Hf; [|done].
        destruct (IH _ H) as (w & s' & -> & _ & Hw & Hk).
        exists (c :: w), s'. simpl. rewrite Hf. repeat split; [lia|done..].
    + destruct (f c) eqn:Hf; [|done].
      destruct (IH _ H) as (w & s' & -> & Hlo & Hw & Hk).
      exists (c :: w), s'. simpl. rewrite Hf. repeat split; [lia|done..].
Qed.

Lemma rep_complete lo w s' :
  forallb f w = true → lo ≤ length w → is_Some (k s') →
  is_Some (rep g f k lo (w ++ s')).
Proof.
  revert lo. induction w as [|c w IH]; intros lo Hw Hlo Hk; simpl in *.
  - assert (lo = 0) as -> by lia.
    destruct g, s' as [|c s]; simpl; try done.
    + destruct (f c); [|done]. by destruct (rep Greedy f k 0 s).
    + by destruct Hk as [r ->].
    + by destruct Hk as [r ->].
  - apply andb_prop in Hw as [Hc Hw]. rewrite Hc.
    destruct lo as [|lo]; [|apply IH; [done|lia|done]].
    specialize (IH 0 Hw ltac:(lia) Hk). destruct g.
    + by destruct IH as [r ->].
    + by destruct (k (c :: w ++ s')).
Qed.

(** A greedy quantifier gives back nothing when the continuation accepts
    what follows the longest run. *)
Lemma rep_greedy_all lo w s' r :
  forallb f w = true → lo ≤ length w →
  match s' with c :: _ => f c = false | [] => True end →
  k s' = Some r →
  rep Greedy f k lo (w ++ s') = Some r.
Proof.
  revert lo. induction w as [|c w IH]; intros lo Hw Hlo Hs Hk; simpl in *.
  - assert (lo = 0) as -> by lia.
    destruct s' as [|c s]; simpl; [done|]. by rewrite Hs.
  - apply andb_prop in Hw as [Hc Hw]. rewrite Hc.
    destruct lo as [|lo]; [|apply IH; [done|lia|done..]].
    by rewrite (IH 0 Hw ltac:(lia) Hs Hk).
Qed.

(** A lazy quantifier stops at the first place where the continuation
    accepts. *)
Lemma rep_lazy_first w s' r :
  forallb f w = true →
  (∀ a b, w = a ++ b → b ≠ [] → k (b ++ s') = None) →
  k s' = Some r →
  rep Lazy f k 0 (w ++ s') = Some r.
Proof.
  induction w as [|c w IH]; intros Hw Hno Hk; simpl.
  - destruct s'; simpl; by rewrite Hk.
  - simpl in Hw. apply andb_prop in Hw as [Hc Hw].
    pose proof (Hno [] (c :: w) eq_refl ltac:(done)) as H0. simpl in H0.
    rewrite H0, Hc.
    apply IH; [done| |done]. intros a b -> Hb. by apply (Hno (c :: a) b).
Qed.

(** Conversely, what a lazy quantifier passed over held no accepting
    place. *)
Lemma rep_lazy_inv s r :
  rep Lazy f k 0 s = Some r →
  ∃ w s', s = w ++ s' ∧ forallb f w = true ∧ k s' = Some r
          ∧ ∀ a b, w = a ++ b → b ≠ [] → k (b ++ s') = None.
Proof.
  assert (Hnil : ∀ s' a b, ([] : pystr) = a ++ b → b ≠ [] → k (b ++ s') = None).
  { intros s' a b E Hb. symmetry in E. by apply app_eq_nil in E as [_ ->]. }
  induction s as [|c s IH]; intros H; simpl in H.
  - exists [], []. destruct (k []) eqn:Hk; [|done]. injection H as ->.
    split_and!; try done. apply Hnil.
  - destruct (k (c :: s)) eqn:Hk.
    + injection H as ->. exists [], (c :: s). split_and!; try done. apply Hnil.
    + destruct (f c) eqn:Hf; [|done].
      destruct (IH H) as (w & s' & -> & Hw & Hk' & Hno).
      exists (c :: w), s'. simpl. rewrite Hf. split_and!; try done.
      intros a b E Hb. destruct a as [|c' a]; simpl in E.
      * by subst b.
      * injection E as -> ->. by eapply Hno.
Qed.
End Rep.

Lemma run_sound p s ms ms' rest :
  run p s ms = Some (ms', rest) → ∃ m, s = m ++ rest ∧ Lang p m.
Proof.
  revert s ms. induction p as [|[f|g lo f|i] p IH]; intros s ms H; simpl in *.
  - injection H as -> ->. by exists [].
  - destruct s as [|c s]; [done|]. destruct (f c) eqn:Hf; [|done].
    destruct (IH _ _ H) as (m & -> & Hm). exists (c :: m). eauto 6.
  - apply rep_sound in H as (w & s' & -> & Hlo & Hw & Hk).
    destruct (IH _ _ Hk) as (m & -> & Hm).
    exists (w ++ m). rewrite app_assoc. eauto 8.
  - by apply IH in H.
Qed.

Lemma run_complete p m rest ms :
  Lang p m → is_Some (run p (m ++ rest) ms).
Proof.
  revert m ms. induction p as [|[f|g lo f|i] p IH]; intros m ms H; simpl in *.
  - by subst m.
  - destruct H as (c & m' & -> & Hf & Hm). simpl. rewrite Hf. by apply IH.
  - destruct H as (w & m' & -> & Hlo & Hw & Hm). rewrite <- app_assoc.
    apply rep_complete; [done..|]. by apply IH.
  - by apply IH.
Qed.

Lemma run_Some_starts p s ms r : run p s ms = Some r → starts p s.
Proof. destruct r as [ms' rest]. intros H. apply run_sound in H as (m & -> & H). by exists m, rest. Qed.

Lemma run_None_starts p s ms : run p s ms = None ↔ ¬ starts p s.
Proof.
  split.
  - intros H (m & rest & -> & Hm).
    destruct (run_complete p m rest ms Hm) as [r Hr]. congruence.
  - intros H. destruct (run p s ms) eqn:E; [|done].
    destruct H. by eapply run_Some_starts.
Qed.

(** What [re.search] returns: the match at the first position that has
    one. *)
Lemma search_Some p s pre ms rest :
  search p s = Some (pre, ms, rest) →
  ∃ t, s = pre ++ t ∧ run p t [] = Some (ms, rest)
       ∧ ∀ a b, pre = a ++ b → b ≠ [] → run p (b ++ t) [] = None.
Proof.
  revert pre. induction s as [|c s IH]; intros pre H; simpl in H.
  - destruct (run p [] []) as [[ms0 rest0]|] eqn:E; [|done].
    injection H as <- <- <-. exists []. split_and!; try done.
    intros a b Hab Hb. symmetry in Hab. by apply app_eq_nil in Hab as [_ ->].
  - destruct (run p (c :: s) []) as [[ms0 rest0]|] eqn:E.
    + injection H as <- <- <-. exists (c :: s). split_and!; try done.
      intros a b Hab Hb. symmetry in Hab. by apply app_eq_nil in Hab as [_ ->].
    + destruct (search p s) as [[[pre0 ms0] rest0]|] eqn:Es; [|done].
      injection H as <- <- <-.
      destruct (IH _ eq_refl) as (t & -> & Ht & Hno).
      exists t. split_and!; try done.
      intros a b Hab Hb. destruct a as [|c' a]; simpl in Hab.
      * by subst b.
      * injection Hab as -> ->. by eapply Hno.
Qed.

Lemma search_None_run p s :
  search p s = None ↔ ∀ a b, s = a ++ b → run p b [] = None.
Proof.
  induction s as [|c s IH]; simpl.
  - destruct (run p [] []) as [[ms rest]|] eqn:E.
    + split; [done|]. intros H. rewrite (H [] []) in E; done.
    + split; [|done]. intros _ a b Hab.
      symmetry in Hab. by apply app_eq_nil in Hab as [-> ->].
  - destruct (run p (c :: s) []) as [[ms rest]|] eqn:E.
    + split; [done|]. intros H. rewrite (H [] (c :: s)) in E; done.
    + destruct (search p s) as [[[pre ms] rest]|] eqn:Es.
      * split; [done|]. intros H.
        destruct IH as [_ IH]. discriminate IH.
        intros a b ->. by apply (H (c :: a) b).
      * split; [|done]. intros _ a b Hab.
        destruct a as [|c' a]; simpl in Hab.
        -- by subst b.
        -- injection Hab as -> ->. destruct IH as [IH _]. by eapply IH.
Qed.

(** [re.search] finds nothing exactly when the pattern occurs nowhere. *)
Lemma search_None p s : search p s = None ↔ ¬ occurs p s.
Proof.
  rewrite search_None_run. split.
  - intros H (pre & m & post & -> & Hm).
    specialize (H pre (m ++ post) eq_refl).
    apply run_None_starts in H. apply H. by exists m, post.
  - intros H a b ->. apply run_None_starts.
    intros (m & post & -> & Hm). apply H. by exists a, m, post.
Qed.

(** Literals are matched by comparison. *)
Lemma run_lits (t : string) p s ms :
  run (lits t ++ p) s ms
  = if startswith (str t) s then run p (drop (length (str t)) s) ms else None.
Proof.
  unfold lits. generalize (str t) as l. intros l. revert s.
  induction l as [|a l IH]; intros s; simpl; [done|].
  destruct s as [|c s]; [done|]. simpl.
  destruct (a =? c)%N; simpl; [apply IH|done].
Qed.

Lemma run_lits_app (t : string) p s ms :
  run (lits t ++ p) (str t ++ s) ms = run p s ms.
Proof. by rewrite run_lits, startswith_app, drop_app_length. Qed.

Lemma any_all (w : pystr) : forallb any w = true.
Proof.
  induction w as [|c w IH]; simpl; [done|].
  rewrite IH. unfold any. by destruct (isspace c).
Qed.

(** ** [re.sub] along a document *)

Lemma sub_from_0 p tpl s :
  sub_from p tpl 0 s =
  match run p s [] with
  | Some (ms, rest) =>
      expand tpl s ms rest ++
      match s with
      | [] => []
      | c :: s' =>
          match length s - length rest with
          | O => c :: sub_from p tpl 0 s'
          | S n => sub_from p tpl n s'
          end
      end
  | None => match s with [] => [] | c :: s' => c :: sub_from p tpl 0 s' end
  end.
Proof. by destruct s. Qed.

Lemma sub_from_skip p tpl m s :
  sub_from p tpl (length m) (m ++ s) = sub_from p tpl 0 s.
Proof. induction m as [|c m IH]; simpl; [done|apply IH]. Qed.

(** A non-empty match is replaced by the expansion and the scan goes on
    after it. *)
Lemma sub_from_match p tpl m rest ms :
  m ≠ [] → run p (m ++ rest) [] = Some (ms, rest) →
  sub_from p tpl 0 (m ++ rest)
  = expand tpl (m ++ rest) ms rest ++ sub_from p tpl 0 rest.
Proof.
  intros Hm Hrun. rewrite sub_from_0, Hrun. f_equal.
  destruct m as [|c m]; [done|]. simpl app.
  replace (length (c :: m ++ rest) - length rest) with (S (length m))
    by (simpl; rewrite length_app; lia).
  apply sub_from_skip.
Qed.

(** Text in which no match begins is copied. *)
Lemma sub_from_gap p tpl g s :
  (∀ a b, g = a ++ b → b ≠ [] → run p (b ++ s) [] = None) →
  sub_from p tpl 0 (g ++ s) = g ++ sub_from p tpl 0 s.
Proof.
  induction g as [|c g IH]; intros H; [done|].
  pose proof (H [] (c :: g) eq_refl ltac:(done)) as H0.
  simpl app in *. rewrite sub_from_0, H0. f_equal.
  apply IH. intros a b -> Hb. by apply (H (c :: a) b).
Qed.

Lemma sub_from_none p tpl s :
  (∀ a b, s = a ++ b → run p b [] = None) → sub_from p tpl 0 s = s.
Proof.
  intros H. rewrite <- (app_nil_r s) at 1. rewrite sub_from_gap.
  - rewrite sub_from_0, (H s []); [|by rewrite app_nil_r]. by rewrite app_nil_r.
  - intros a b -> Hb. rewrite app_nil_r. by apply (H a b).
Qed.

(** Group 1 when it opens the match. *)
Lemma group_1 (s0 : pystr) (ms : marks) (m tl rest : pystr) :
  group s0 ((1, tl) :: (0, m ++ tl) :: ms) rest 1 = m.
Proof. unfold group. simpl. apply between_app. Qed.

(** ** The injection point *)

(** No suffix of [body ++ "];"] but the last begins with ["];"]. *)
Lemma close_first (body rest a b : pystr) :
  contains (str "];") body = false → body = a ++ b → b ≠ [] →
  startswith (str "];") (b ++ str "];" ++ rest) = false.
Proof.
  intros Hc -> Hb. rewrite contains_false in Hc.
  specialize (Hc a b eq_refl).
  destruct b as [|x [|y b]]; [done| |].
  - simpl in *. by rewrite andb_false_r.
  - simpl in *. done.
Qed.

(** On a statement of the expected shape whose array holds no ["];"],
    the pattern matches the whole statement, with the assignment as
    group 1. *)
Lemma run_data_pattern w1 w2 w3 body rest :
  forallb isspace w1 = true → w1 ≠ [] →
  forallb isspace w2 = true → forallb isspace w3 = true →
  contains (str "];") body = false →
  ∃ ms, run data_pattern
          (assignment w1 w2 w3 ++ str "[" ++ body ++ str "];" ++ rest) []
        = Some (ms, rest)
      ∧ ∀ s, group s ms rest 1 = assignment w1 w2 w3.
Proof.
  intros H1 Hne H2 H3 Hb. eexists. split.
  - unfold data_pattern, assignment. rewrite <- !app_assoc.
    cbn [app run]. rewrite run_lits_app.
    cbn [app run ws_plus ws_star].
    apply rep_greedy_all; [done|destruct w1; [done|simpl; lia]|done|].
    cbn beta. rewrite run_lits_app. cbn [app run].
    apply rep_greedy_all; [done|simpl; lia|done|].
    cbn beta. rewrite run_lits_app. cbn [app run].
    apply rep_greedy_all; [done|simpl; lia|done|].
    cbn beta. cbn [run]. rewrite run_lits_app. cbn [app run].
    apply rep_lazy_first; [apply any_all| |].
    + intros a b Hab Hnb. rewrite <- (app_nil_r (lits "];")), run_lits.
      by rewrite (close_first body rest a b).
    + rewrite <- (app_nil_r (lits "];")), run_lits_app. reflexivity.
  - intros s.
    etrans; [|apply (group_1 s [] (assignment w1 w2 w3)
                       (str "[" ++ body ++ str "];" ++ rest) rest)].
    unfold assignment. by rewrite <- !app_assoc.
Qed.

Lemma startswith_app_mono (t b x : pystr) :
  startswith t b = true → startswith t (b ++ x) = true.
Proof.
  intros H. apply startswith_true in H as [r ->].
  rewrite <- app_assoc. apply startswith_app.
Qed.

Lemma run_lits_end (t : string) s ms :
  run (lits t) s ms
  = if startswith (str t) s then Some (ms, drop (length (str t)) s) else None.
Proof. rewrite <- (app_nil_r (lits t)). apply run_lits. Qed.

(** Conversely, whatever [data_pattern] matches is such a statement,
    ended by the first ["];"] after the bracket. *)
Lemma run_data_pattern_inv s ms rest :
  run data_pattern s [] = Some (ms, rest) →
  ∃ w1 w2 w3 body,
    forallb isspace w1 = true ∧ w1 ≠ [] ∧
    forallb isspace w2 = true ∧ forallb isspace w3 = true ∧
    contains (str "];") body = false ∧
    s = assignment w1 w2 w3 ++ str "[" ++ body ++ str "];" ++ rest ∧
    ∀ s0, group s0 ms rest 1 = assignment w1 w2 w3.
Proof.
  intros H. unfold data_pattern in H. cbn [app run] in H.
  rewrite run_lits in H.
  destruct (startswith (str "const") s) eqn:E; [|done].
  apply startswith_true in E as [r ->]. rewrite drop_app_length in H.
  cbn [app run ws_plus ws_star] in H.
  apply rep_sound in H as (w1 & s1 & -> & Hlo & Hw1 & H). cbn beta in H.
  rewrite run_lits in H.
  destruct (startswith (str "data") s1) eqn:E; [|done].
  apply startswith_true in E as [r ->]. rewrite drop_app_length in H.
  cbn [app run] in H.
  apply rep_sound in H as (w2 & s2 & -> & _ & Hw2 & H). cbn beta in H.
  rewrite run_lits in H.
  destruct (startswith (str "=") s2) eqn:E; [|done].
  apply startswith_true in E as [r ->]. rewrite drop_app_length in H.
  cbn [app run] in H.
  apply rep_sound in H as (w3 & s3 & -> & _ & Hw3 & H). cbn beta in H.
  cbn [run] in H. rewrite run_lits in H.
  destruct (startswith (str "[") s3) eqn:E; [|done].
  apply startswith_true in E as [r ->]. rewrite drop_app_length in H.
  cbn [app run] in H.
  apply rep_lazy_inv in H as (body & s4 & -> & _ & H & Hno).
  rewrite run_lits_end in H.
  destruct (startswith (str "];") s4) eqn:E; [|done].
  apply startswith_true in E as [r ->]. rewrite drop_app_length in H.
  injection H as <- <-. rename r into rest.
  exists w1, w2, w3, body. split_and!; try done.
  - destruct w1; [simpl in Hlo; lia|done].
  - apply contains_false. intros a b ->.
    destruct b as [|x b]; [done|].
    specialize (Hno a (x :: b) eq_refl ltac:(done)).
    rewrite run_lits_end in Hno.
    destruct (startswith (str "];") (x :: b)) eqn:E; [|done].
    by rewrite (startswith_app_mono _ _ (str "];" ++ rest) E) in Hno.
  - unfold assignment. by rewrite <- !app_assoc.
  - intros s0.
    etrans; [|apply (group_1 s0 [] (assignment w1 w2 w3)
                       (str "[" ++ body ++ str "];" ++ rest) rest)].
    unfold assignment. by rewrite <- !app_assoc.
Qed.

(** The language of [data_pattern], spelled out. *)
Lemma Lang_lits (t : string) p m :
  Lang (lits t ++ p) m ↔ ∃ m', m = str t ++ m' ∧ Lang p m'.
Proof.
  unfold lits. generalize (str t) as l. intros l. revert m.
  induction l as [|a l IH]; intros m; simpl.
  - split; [by exists m|by intros (m' & -> & H)].
  - split.
    + intros (c & m' & -> & Hc & H). apply N.eqb_eq in Hc as ->.
      apply IH in H as (m'' & -> & H). by exists m''.
    + intros (m' & -> & H). exists a, (l ++ m'). split_and!; [done|apply N.eqb_refl|].
      apply IH. by exists m'.
Qed.

Lemma Lang_cons_mark i p m : Lang (Mark i :: p) m ↔ Lang p m.
Proof. done. Qed.

Lemma Lang_cons_rep g lo f p m :
  Lang (Rep g lo f :: p) m
  ↔ ∃ w m', m = w ++ m' ∧ lo ≤ length w ∧ forallb f w = true ∧ Lang p m'.
Proof. done. Qed.

Lemma Lang_lits_end (t : string) m : Lang (lits t) m ↔ m = str t.
Proof.
  rewrite <- (app_nil_r (lits t)), Lang_lits. simpl. split.
  - intros (m' & -> & ->). by rewrite app_nil_r.
  - intros ->. exists []. by rewrite app_nil_r.
Qed.

Lemma Lang_data_pattern m :
  Lang data_pattern m ↔
  ∃ w1 w2 w3 b,
    forallb isspace w1 = true ∧ w1 ≠ [] ∧
    forallb isspace w2 = true ∧ forallb isspace w3 = true ∧
    m = assignment w1 w2 w3 ++ str "[" ++ b ++ str "];".
Proof.
  unfold data_pattern, assignment. split.
  - intros H. cbn [app] in H.
    apply (proj1 (Lang_cons_mark _ _ _)) in H.
    apply (proj1 (Lang_lits _ _ _)) in H as (m1 & -> & H).
    apply (proj1 (Lang_cons_rep _ _ _ _ _)) in H as (w1 & m2 & -> & Hlo & Hw1 & H).
    apply (proj1 (Lang_lits _ _ _)) in H as (m3 & -> & H).
    apply (proj1 (Lang_cons_rep _ _ _ _ _)) in H as (w2 & m4 & -> & _ & Hw2 & H).
    apply (proj1 (Lang_lits _ _ _)) in H as (m5 & -> & H).
    apply (proj1 (Lang_cons_rep _ _ _ _ _)) in H as (w3 & m6 & -> & _ & Hw3 & H).
    apply (proj1 (Lang_cons_mark _ _ _)) in H.
    apply (proj1 (Lang_lits _ _ _)) in H as (m7 & -> & H).
    apply (proj1 (Lang_cons_rep _ _ _ _ _)) in H as (b & m8 & -> & _ & _ & H).
    apply (proj1 (Lang_lits_end _ _)) in H as ->.
    exists w1, w2, w3, b. split_and!; [done| |done|done|].
    + destruct w1; [simpl in Hlo; lia|done].
    + by rewrite <- !app_assoc.
  - intros (w1 & w2 & w3 & b & Hw1 & Hne & Hw2 & Hw3 & ->).
    rewrite <- !app_assoc. cbn [app].
    apply (proj2 (Lang_cons_mark _ _ _)).
    apply (proj2 (Lang_lits _ _ _)). eexists; split; [reflexivity|].
    apply (proj2 (Lang_cons_rep _ _ _ _ _)).
    exists w1. eexists. split_and!; [reflexivity| |exact Hw1|].
    { destruct w1; [done|simpl; lia]. }
    apply (proj2 (Lang_lits _ _ _)). eexists; split; [reflexivity|].
    apply (proj2 (Lang_cons_rep _ _ _ _ _)).
    exists w2. eexists. split_and!; [reflexivity|lia|exact Hw2|].
    apply (proj2 (Lang_lits _ _ _)). eexists; split; [reflexivity|].
    apply (proj2 (Lang_cons_rep _ _ _ _ _)).
    exists w3. eexists. split_and!; [reflexivity|lia|exact Hw3|].
    apply (proj2 (Lang_cons_mark _ _ _)).
    apply (proj2 (Lang_lits _ _ _)). eexists; split; [reflexivity|].
    apply (proj2 (Lang_cons_rep _ _ _ _ _)).
    exists b. eexists. split_and!; [reflexivity|lia|apply any_all|].
    by apply (proj2 (Lang_lits_end _ _)).
Qed.

Lemma quiet_run p g ctx :
  quiet p g ctx ↔ ∀ a b, g = a ++ b → b ≠ [] → run p (b ++ ctx) [] = None.
Proof.
  unfold quiet. split; intros H a b E Hb.
  - apply run_None_starts. by eapply H.
  - apply (run_None_starts p _ []). by eapply H.
Qed.

Lemma quietb_quiet p g ctx : quietb p g ctx = true ↔ quiet p g ctx.
Proof.
  rewrite quiet_run. induction g as [|c g IH]; simpl.
  - split; [|done]. intros _ a b E Hb.
    symmetry in E. by apply app_eq_nil in E as [_ ->].
  - destruct (run p (c :: g ++ ctx) []) eqn:E.
    + split; [done|]. intros H.
      pose proof (H [] (c :: g) eq_refl ltac:(done)) as H0. simpl in H0. congruence.
    + rewrite IH. split.
      * intros H a b Hab Hb. destruct a as [|c' a]; simpl in Hab.
        -- by subst b.
        -- injection Hab as -> ->. by eapply H.
      * intros H a b -> Hb. by apply (H (c :: a) b).
Qed.

Lemma sub_from_quiet p tpl g s :
  quiet p g s → sub_from p tpl 0 (g ++ s) = g ++ sub_from p tpl 0 s.
Proof. rewrite quiet_run. apply sub_from_gap. Qed.

(** The scan of [re.sub], as an induction principle, for a pattern whose
    matches are never empty. *)
Lemma scan_ind p (P : pystr → Prop) :
  (∀ s ms rest, run p s [] = Some (ms, rest) → length rest < length s) →
  (∀ s, search p s = None → P s) →
  (∀ g t ms rest,
     quiet p g t → run p t [] = Some (ms, rest) → P rest → P (g ++ t)) →
  ∀ s, P s.
Proof.
  intros Hne Hnone Hstep s.
  remember (length s) as n eqn:En. revert s En.
  induction (lt_wf n) as [n _ IH]. intros s ->.
  destruct (search p s) as [[[g ms] rest]|] eqn:Es; [|by apply Hnone].
  apply search_Some in Es as (t & -> & Hrun & Hq).
  apply (Hstep g t ms rest); [by apply quiet_run|done|].
  apply (IH (length rest)); [|done].
  rewrite length_app. specialize (Hne _ _ _ Hrun). lia.
Qed.

(** ** The replacement template of the injector *)

Lemma replace_backslash (j : pystr) :
  replace [BSL] [BSL; BSL] j = flat_map double_backslash j.
Proof.
  unfold replace. induction j as [|c j IH]; [done|].
  cbn [replace_from flat_map startswith length Nat.sub]. rewrite IH.
  rewrite andb_true_r.
  destruct (N.eqb_spec BSL c) as [<-|Hne]; [done|].
  unfold double_backslash. by destruct (N.eqb_spec c BSL).
Qed.

(** The doubled text is read back as the text itself. *)
Lemma parse_template_doubled groups (j t : pystr) :
  parse_template_from groups 0 (flat_map double_backslash j ++ t)
  = tl ← parse_template_from groups 0 t; Some (map Chr j ++ tl).
Proof.
  induction j as [|c j IH]; simpl.
  - by destruct (parse_template_from groups 0 t).
  - unfold double_backslash at 1. destruct (c =? BSL)%N eqn:E.
    + apply N.eqb_eq in E as ->. simpl. rewrite IH.
      by destruct (parse_template_from groups 0 t).
    + simpl. rewrite E. simpl. rewrite IH.
      by destruct (parse_template_from groups 0 t).
Qed.

Lemma parse_data_template (j : pystr) :
  match j with c :: _ => is_digit c = false | [] => True end →
  parse_template 1 (str "\1" ++ replace [BSL] [BSL; BSL] j ++ str ";")
  = Some (Grp 1 :: map Chr (j ++ str ";")).
Proof.
  intros Hj. rewrite replace_backslash. unfold parse_template.
  assert (parse_template_from 1 0 (flat_map double_backslash j ++ str ";")
          = Some (map Chr (j ++ str ";"))) as Htl.
  { rewrite parse_template_doubled. simpl. by rewrite map_app. }
  destruct j as [|c j]; [done|].
  change (str "\1") with [BSL; 49%N]. cbn [app flat_map] in *.
  unfold double_backslash at 1 in Htl. unfold double_backslash at 1.
  destruct (c =? BSL)%N eqn:E.
  - cbn [app] in *. simpl. simpl in Htl. by rewrite Htl.
  - cbn [app] in *. cbn [parse_template_from token].
    change (negb (BSL =? BSL)%N) with false. cbn match.
    change (49 =? 103)%N with false. change (49 =? 48)%N with false.
    change (is_digit 49%N) with true. cbn match. rewrite Hj.
    simpl. simpl in Htl. by rewrite Htl.
Qed.

Lemma expand_app t1 t2 s ms rest :
  expand (t1 ++ t2) s ms rest = expand t1 s ms rest ++ expand t2 s ms rest.
Proof. unfold expand. apply flat_map_app. Qed.

Lemma expand_grp k s ms rest : expand [Grp k] s ms rest = group s ms rest k.
Proof. unfold expand. simpl. apply app_nil_r. Qed.

Lemma expand_chrs (l : pystr) s ms rest : expand (map Chr l) s ms rest = l.
Proof. unfold expand. induction l as [|c l IH]; simpl; [done|by rewrite IH]. Qed.

(** The serialized array opens with a bracket and ends with one. *)
Lemma dumps_brackets (data : list entry) :
  ∃ inner, dumps data = str "[" ++ inner ++ str "]".
Proof.
  destruct data as [|e data].
  - by exists [].
  - exists (NL :: str "    "
            ++ join (str "," ++ NL :: str "    ") (map dump_entry (e :: data))
            ++ [NL]).
    unfold dumps.
    generalize (join (str "," ++ NL :: str "    ") (map dump_entry (e :: data))).
    generalize (str "    "), (str "["), (str "]"). intros l1 l2 l3 l4.
    simpl. by rewrite <- !app_assoc.
Qed.

Lemma re_sub_data (data : list entry) (html : pystr) :
  re_sub data_pattern
    (str "\1" ++ replace [BSL] [BSL; BSL] (dumps data) ++ str ";") html
  = Some (sub_from data_pattern (data_template data) 0 html).
Proof.
  unfold re_sub. change (ngroups data_pattern) with 1.
  rewrite parse_data_template; [done|].
  destruct (dumps_brackets data) as [inner ->]. done.
Qed.

(** The two outcomes of [update_index_html] on an existing file. *)
Lemma update_found data html_path w html :
  files w !! html_path = Some html → occurs data_pattern html →
  update_index_html data html_path w
  = Some (print (success html_path data)
            (write html_path
               (sub_from data_pattern (data_template data) 0 html) w)).
Proof.
  intros Hf Ho. unfold update_index_html. rewrite Hf.
  destruct (search data_pattern html) eqn:E.
  - by rewrite re_sub_data.
  - by apply search_None in E.
Qed.

Lemma update_not_found data html_path w html :
  files w !! html_path = Some html → ¬ occurs data_pattern html →
  update_index_html data html_path w
  = Some (print "Error: Could not find 'const data = [...]' in index.html" w).
Proof.
  intros Hf Ho. unfold update_index_html. rewrite Hf.
  apply search_None in Ho. by rewrite Ho.
Qed.

Section Scan.
Context {A : Type} (p : regex) (tpl : list piece).
Context (ok : A → Prop) (old new : A → pystr).

(** On a span the matcher takes the span and the template gives its
    new text. *)
Hypothesis run_span : ∀ x rest, ok x →
  ∃ ms, run p (old x ++ rest) [] = Some (ms, rest)
        ∧ expand tpl (old x ++ rest) ms rest = new x.
Hypothesis old_nonempty : ∀ x, old x ≠ [].

Lemma sub_from_document segs tail :
  scanned_by p ok old segs tail →
  sub_from p tpl 0 (document old segs tail) = document new segs tail.
Proof using run_span old_nonempty.
  induction segs as [|[g x] segs IH]; simpl.
  - intros H. apply sub_from_none. by apply search_None_run, search_None.
  - intros (Hq & Hx & Hsc). rewrite sub_from_quiet; [|done]. f_equal.
    destruct (run_span x (document old segs tail) Hx) as (ms & Hrun & <-).
    rewrite (sub_from_match _ _ _ _ ms); [|done..]. by rewrite IH.
Qed.

(** What the matcher takes is a span. *)
Hypothesis run_inv : ∀ s ms rest,
  run p s [] = Some (ms, rest) → ∃ x, ok x ∧ s = old x ++ rest.

(** Every text is such a sequence. *)
Lemma document_scanned (s : pystr) :
  ∃ segs tail, s = document old segs tail ∧ scanned_by p ok old segs tail.
Proof using run_inv old_nonempty.
  revert s. apply (scan_ind p).
  - intros s ms rest H. apply run_inv in H as (x & _ & ->).
    specialize (old_nonempty x). rewrite length_app.
    destruct (old x); [done|simpl; lia].
  - intros s Hnone. exists [], s. split; [done|]. by apply search_None.
  - intros g t ms rest Hq Hrun (segs & tail & -> & Hsc).
    apply run_inv in Hrun as (x & Hx & ->).
    exists ((g, x) :: segs), tail. by split_and!.
Qed.

Lemma document_occurs segs tail :
  (∀ x, ok x → Lang p (old x)) →
  segs ≠ [] → scanned_by p ok old segs tail →
  occurs p (document old segs tail).
Proof using Type.
  intros HL. destruct segs as [|[g x] segs]; [done|]. intros _ (_ & Hx & _).
  exists g, (old x), (document old segs tail). split; [done|]. by apply HL.
Qed.
End Scan.

Lemma old_text_nonempty st : old_text st ≠ [].
Proof. done. Qed.

Lemma run_statement data st rest :
  statement_ok st →
  ∃ ms, run data_pattern (old_text st ++ rest) [] = Some (ms, rest)
        ∧ expand (data_template data) (old_text st ++ rest) ms rest
          = new_text (dumps data) st.
Proof.
  intros (H1 & Hne & H2 & H3 & Hb).
  destruct (run_data_pattern _ _ _ _ rest H1 Hne H2 H3 Hb) as (ms & Hrun & Hg).
  exists ms. split.
  - unfold old_text, prefix_of. rewrite <- !app_assoc. exact Hrun.
  - change (data_template data)
      with ([Grp 1] ++ map Chr (dumps data ++ str ";")).
    by rewrite expand_app, expand_grp, expand_chrs, Hg.
Qed.

Lemma run_statement_inv s ms rest :
  run data_pattern s [] = Some (ms, rest) →
  ∃ st, statement_ok st ∧ s = old_text st ++ rest.
Proof.
  intros H. apply run_data_pattern_inv in H
    as (w1 & w2 & w3 & b & H1 & Hne & H2 & H3 & Hb & -> & _).
  exists {| sp1 := w1; sp2 := w2; sp3 := w3; array := b |}.
  split; [done|]. unfold old_text, prefix_of. cbn [sp1 sp2 sp3 array].
  by rewrite <- !app_assoc.
Qed.

Lemma Lang_statement st : statement_ok st → Lang data_pattern (old_text st).
Proof.
  intros (H1 & Hne & H2 & H3 & _).
  apply Lang_data_pattern. by exists (sp1 st), (sp2 st), (sp3 st), (array st).
Qed.

Lemma sub_from_statements data segs tail :
  scanned segs tail →
  sub_from data_pattern (data_template data) 0 (document old_text segs tail)
  = document (new_text (dumps data)) segs tail.
Proof.
  apply (sub_from_document data_pattern (data_template data) statement_ok
           old_text (new_text (dumps data)));
    [apply run_statement|apply old_text_nonempty].
Qed.

Lemma statements_occur segs tail :
  segs ≠ [] → scanned segs tail → occurs data_pattern (document old_text segs tail).
Proof.
  apply (document_occurs data_pattern statement_ok old_text). apply Lang_statement.
Qed.

Lemma has_statement_occurs html : has_statement html ↔ occurs data_pattern html.
Proof.
  split.
  - intros (pre & w1 & w2 & w3 & b & post & H1 & Hne & H2 & H3 & ->).
    exists pre, (assignment w1 w2 w3 ++ str "[" ++ b ++ str "];"), post.
    split; [by rewrite <- !app_assoc|].
    apply Lang_data_pattern. by exists w1, w2, w3, b.
  - intros (pre & m & post & -> & Hm).
    apply Lang_data_pattern in Hm as (w1 & w2 & w3 & b & H1 & Hne & H2 & H3 & ->).
    exists pre, w1, w2, w3, b, post. split_and!; try done.
    by rewrite <- !app_assoc.
Qed.

(** *** Running the injector on its own output *)

Lemma split_at_first (c : char) (q u x v : pystr) :
  forallb (λ d, negb (d =? c)%N) q = true →
  u ++ c :: x = q ++ c :: v → ∃ z, u ++ [c] = q ++ c :: z.
Proof.
  revert u. induction q as [|d q IH]; intros u Hq E; simpl in *.
  - destruct u as [|d u]; simpl in *.
    + by exists [].
    + injection E as -> _. by exists (u ++ [c]).
  - apply andb_prop in Hq as [Hd Hq].
    destruct u as [|d' u]; simpl in *.
    + injection E as -> _. by rewrite N.eqb_refl in Hd.
    + injection E as -> E. destruct (IH _ Hq E) as [z Hz].
      exists z. by rewrite Hz.
Qed.

Lemma space_not_bracket (w : pystr) :
  forallb isspace w = true → forallb (λ d, negb (d =? 91)%N) w = true.
Proof.
  induction w as [|c w IH]; simpl; [done|].
  intros H. apply andb_prop in H as [Hc Hw]. rewrite (IH Hw), andb_true_r.
  destruct (N.eqb_spec c 91) as [->|]; [done|done].
Qed.

Lemma assignment_no_bracket w1 w2 w3 :
  forallb isspace w1 = true → forallb isspace w2 = true →
  forallb isspace w3 = true →
  forallb (λ d, negb (d =? 91)%N) (assignment w1 w2 w3) = true.
Proof.
  intros H1 H2 H3. unfold assignment.
  rewrite !forallb_app.
  repeat (apply andb_true_intro; split);
    first [by apply space_not_bracket | reflexivity].
Qed.

(** Whether a statement begins inside a gap depends on the text up to
    the next bracket only. *)
Lemma quiet_data_context (g A body rest y : pystr) :
  quiet data_pattern g (A ++ str "[" ++ body ++ str "];" ++ rest) →
  quiet data_pattern g (A ++ str "[" ++ y).
Proof.
  intros Hq a b E Hb (m & r & Em & Hm). apply (Hq a b E Hb).
  apply Lang_data_pattern in Hm as (w1 & w2 & w3 & bb & H1 & Hne & H2 & H3 & ->).
  set (Q := assignment w1 w2 w3) in *.
  assert ((b ++ A) ++ 91%N :: y = Q ++ 91%N :: (bb ++ str "];" ++ r)) as E1.
  { rewrite <- !app_assoc in Em. rewrite <- !app_assoc. exact Em. }
  destruct (split_at_first 91%N Q (b ++ A) y (bb ++ str "];" ++ r)) as [z Hz];
    [by apply assignment_no_bracket|exact E1|].
  exists (Q ++ str "[" ++ (z ++ body) ++ str "];"), rest. split.
  - apply (f_equal (λ l, l ++ body ++ str "];" ++ rest)) in Hz.
    rewrite <- !app_assoc in Hz. rewrite <- !app_assoc. exact Hz.
  - apply Lang_data_pattern. by exists w1, w2, w3, (z ++ body).
Qed.

Lemma document_new_old (j : pystr) segs tail :
  document (new_text (str "[" ++ j ++ str "]")) segs tail
  = document old_text (rebody j segs) tail.
Proof.
  induction segs as [|[g st] segs IH]; [done|].
  cbn [rebody map document]. fold (rebody j segs). rewrite IH.
  unfold new_text, old_text, prefix_of. cbn [sp1 sp2 sp3 array].
  by rewrite <- !app_assoc.
Qed.

Lemma document_new_rebody (json j : pystr) segs tail :
  document (new_text json) (rebody j segs) tail
  = document (new_text json) segs tail.
Proof.
  induction segs as [|[g st] segs IH]; [done|].
  cbn [rebody map document]. fold (rebody j segs). by rewrite IH.
Qed.

Lemma scanned_rebody (j : pystr) segs tail :
  contains (str "];") j = false →
  scanned segs tail → scanned (rebody j segs) tail.
Proof.
  intros Hj. unfold scanned.
  induction segs as [|[g st] segs IH]; [done|].
  cbn [rebody map scanned_by document]. fold (rebody j segs).
  intros (Hq & Hst & Hsc). split_and!.
  - unfold old_text in *. cbn [sp1 sp2 sp3 array prefix_of].
    rewrite <- !app_assoc in Hq. rewrite <- !app_assoc.
    by eapply quiet_data_context.
  - destruct Hst as (H1 & Hne & H2 & H3 & _). by split_and!.
  - by apply IH.
Qed.

(** ** The injector *)

(** C3: the injector passes the JSON text with every backslash doubled
    (and nothing else changed) to [re.sub]; the template then reads back
    as group 1 followed by the JSON text itself and [;], so that the
    statement found first is replaced by its own assignment prefix, the
    serialized JSON verbatim, and [;]. *)
Theorem injected_json_is_verbatim data html_path w html pre ms rest :
  files w !! html_path = Some html →
  search data_pattern html = Some (pre, ms, rest) →
  replace [BSL] [BSL; BSL] (dumps data) = flat_map double_backslash (dumps data)
  ∧ parse_template (ngroups data_pattern)
      (str "\1" ++ replace [BSL] [BSL; BSL] (dumps data) ++ str ";")
    = Some (Grp 1 :: map Chr (dumps data ++ str ";"))
  ∧ ∃ st later,
      statement_ok st ∧ html = pre ++ old_text st ++ rest ∧
      update_index_html data html_path w
      = Some (print (success html_path data)
                (write html_path
                   (pre ++ prefix_of st ++ dumps data ++ str ";" ++ later) w)).
Proof.
  intros Hf Hs. split; [apply replace_backslash|]. split.
  { change (ngroups data_pattern) with 1. apply parse_data_template.
    by destruct (dumps_brackets data) as [inner ->]. }
  apply search_Some in Hs as (t & -> & Hrun & Hq).
  apply run_data_pattern_inv in Hrun
    as (w1 & w2 & w3 & b & H1 & Hne & H2 & H3 & Hb & -> & _).
  set (st := {| sp1 := w1; sp2 := w2; sp3 := w3; array := b |}).
  assert (statement_ok st) as Hst by done.
  exists st, (sub_from data_pattern (data_template data) 0 rest).
  split; [done|].
  assert (assignment w1 w2 w3 ++ str "[" ++ b ++ str "];" ++ rest
          = old_text st ++ rest) as Et.
  { unfold old_text, prefix_of, st. cbn [sp1 sp2 sp3 array].
    by rewrite <- !app_assoc. }
  rewrite Et in *. split; [done|].
  erewrite update_found; [|done|].
  - rewrite sub_from_gap; [|done].
    destruct (run_statement data st rest Hst) as (ms' & Hrun & Hex).
    rewrite (sub_from_match _ _ _ _ ms'); [|apply old_text_nonempty|done].
    rewrite Hex. unfold new_text. by rewrite <- !app_assoc.
  - exists pre, (old_text st), rest. split; [done|]. by apply Lang_statement.
Qed.

(** C4: on an HTML file that holds no statement [const data = [...];],
    the injector prints the "could not find" line and writes nothing:
    the files are as they were. *)
Theorem missing_injection_point data html_path w html :
  files w !! html_path = Some html →
  ¬ has_statement html →
  ∃ w', update_index_html data html_path w = Some w'
        ∧ stdout w'
          = stdout w ++ ["Error: Could not find 'const data = [...]' in index.html"]
        ∧ files w' = files w.
Proof.
  intros Hf Hno.
  exists (print "Error: Could not find 'const data = [...]' in index.html" w).
  split; [|done].
  eapply update_not_found; [done|]. by rewrite <- has_statement_occurs.
Qed.

(** C10: when the document holds several statements, the ones a scan from
    left to right meets, each of them is replaced by its own prefix, the
    serialized JSON and [;]; the gaps between them and the tail are
    kept. *)
Theorem every_statement_is_replaced data html_path w segs tail :
  files w !! html_path = Some (document old_text segs tail) →
  scanned segs tail →
  2 ≤ length segs →
  update_index_html data html_path w
  = Some (print (success html_path data)
            (write html_path (document (new_text (dumps data)) segs tail) w)).
Proof.
  intros Hf Hsc Hlen. erewrite update_found; [|done|].
  - by rewrite sub_from_statements.
  - apply statements_occur; [|done]. destruct segs; [simpl in Hlen; lia|done].
Qed.

(** C2, as amended: when the serialized JSON holds no ["];"], a second
    run with the same records on the output of a successful first run
    writes back the very text it read. *)
Theorem rerun_is_identity data html_path w html :
  files w !! html_path = Some html →
  has_statement html →
  contains (str "];") (dumps data) = false →
  ∃ w1 w2 out,
    update_index_html data html_path w = Some w1
    ∧ files w1 !! html_path = Some out
    ∧ update_index_html data html_path w1 = Some w2
    ∧ files w2 !! html_path = Some out
    ∧ files w2 = files w1.
Proof.
  intros Hf Ho Hj. apply has_statement_occurs in Ho.
  destruct (document_scanned data_pattern statement_ok old_text
              old_text_nonempty run_statement_inv html)
    as (segs & tail & -> & Hsc).
  fold (scanned segs tail) in Hsc.
  assert (segs ≠ []) as Hne by (by intros ->).
  pose proof (λ sg, sub_from_statements data sg tail) as Hsub.
  destruct (dumps_brackets data) as [inner Einner].
  assert (contains (str "];") inner = false) as Hinner.
  { rewrite Einner in Hj. apply contains_app_r in Hj. by apply contains_app_l in Hj. }
  pose proof (scanned_rebody inner segs tail Hinner Hsc) as Hsc'.
  set (out := document (new_text (dumps data)) segs tail).
  assert (out = document old_text (rebody inner segs) tail) as Eout.
  { unfold out. rewrite Einner. apply document_new_old. }
  assert (sub_from data_pattern (data_template data) 0 out = out) as Hout.
  { rewrite Eout at 1. rewrite Hsub by done. apply document_new_rebody. }
  assert (occurs data_pattern out) as Ho1.
  { rewrite Eout. apply statements_occur; [|done]. by destruct segs. }
  set (w1 := print (success html_path data) (write html_path out w)).
  assert (files w1 !! html_path = Some out) as Hf1 by apply lookup_insert_eq.
  exists w1, (print (success html_path data) (write html_path out w1)), out.
  split_and!.
  - rewrite (update_found data html_path w _ Hf Ho). by rewrite Hsub.
  - done.
  - rewrite (update_found data html_path w1 out Hf1 Ho1). by rewrite Hout.
  - apply lookup_insert_eq.
  - apply insert_insert_eq.
Qed.

(** C2, as stated, fails: a record whose text holds ["];"] ends the
    statement early on the second run, which then grows the document. *)
Lemma rerun_changes_document :
  ∃ w1 w2,
    update_index_html rerun_data "index.html" rerun_world = Some w1
    ∧ update_index_html rerun_data "index.html" w1 = Some w2
    ∧ files w1 !! "index.html" = Some rerun_first
    ∧ files w2 !! "index.html" = Some (rerun_first ++ rerun_leftover)
    ∧ files w2 !! "index.html" ≠ files w1 !! "index.html".
Proof.
  exists (print (success "index.html" rerun_data)
            (write "index.html" rerun_first rerun_world)).
  exists (print (success "index.html" rerun_data)
            (write "index.html" (rerun_first ++ rerun_leftover)
               (print (success "index.html" rerun_data)
                  (write "index.html" rerun_first rerun_world)))).
  split_and!.
  - vm_compute. reflexivity.
  - vm_compute. reflexivity.
  - vm_compute. reflexivity.
  - vm_compute. reflexivity.
  - vm_compute. discriminate.
Qed.

(** ** The extractor *)

Lemma re_sub_link s : re_sub link_pattern link_repl s = Some (linkify s).
Proof. reflexivity. Qed.

Lemma re_sub_bold s : re_sub bold_pattern bold_repl s = Some (embolden s).
Proof. reflexivity. Qed.

Lemma rows_cons line lines data :
  rows (line :: lines) data = rows lines (data ++ row_entries line).
Proof.
  unfold row_entries, is_row, cells. cbn [rows]. cbv zeta.
  destruct (startswith (str "|") (strip line)) eqn:E; cbn [negb andb].
  - destruct (6 <=? length _) eqn:E6.
    + rewrite re_sub_link, !re_sub_bold. reflexivity.
    + by rewrite app_nil_r.
  - by rewrite app_nil_r.
Qed.

(** The loop never fails, keeps what was built, and adds the entries of
    the lines in order. *)
Lemma rows_spec lines data :
  rows lines data = Some (data ++ flat_map row_entries lines).
Proof.
  revert data. induction lines as [|line lines IH]; intros data.
  - simpl. by rewrite app_nil_r.
  - rewrite rows_cons, IH. simpl. by rewrite <- app_assoc.
Qed.

Lemma rows_app l1 l2 data :
  rows (l1 ++ l2) data = Some (data ++ flat_map row_entries l1 ++ flat_map row_entries l2).
Proof. by rewrite rows_spec, flat_map_app. Qed.

Lemma row_entries_row line :
  is_row line = true → 6 ≤ length (cells line) →
  row_entries line = [entry_of (cells line)].
Proof.
  intros Hrow Hlen. unfold row_entries. rewrite Hrow.
  apply Nat.leb_le in Hlen. by rewrite Hlen.
Qed.

Lemma row_entries_short line :
  length (cells line) < 6 → row_entries line = [].
Proof.
  intros Hlen. unfold row_entries.
  destruct (6 <=? length (cells line)) eqn:E.
  - apply Nat.leb_le in E. lia.
  - by rewrite andb_false_r.
Qed.

Lemma rows_middle before line after :
  is_row line = true → 6 ≤ length (cells line) →
  rows (before ++ line :: after) []
  = Some (flat_map row_entries before
          ++ entry_of (cells line) :: flat_map row_entries after).
Proof.
  intros Hrow Hlen. rewrite rows_spec, flat_map_app. cbn [flat_map app].
  by rewrite (row_entries_row line Hrow Hlen).
Qed.

Lemma cell_Some (cols : list pystr) i c : cols !! i = Some c → cell cols i = c.
Proof.
  intros H. unfold cell. transitivity (default [] (Some c)); [|done].
  f_equal. exact H.
Qed.

Lemma cell_lookup (cols : list pystr) i :
  i < length cols → cols !! i = Some (cell cols i).
Proof.
  intros Hi. destruct (lookup_lt_is_Some_2 cols i Hi) as [c Hc].
  rewrite (cell_Some _ _ _ Hc). exact Hc.
Qed.

(** With the header found, [parse_readme] prints nothing and returns the
    entries of the data lines. *)
Lemma parse_readme_found readme_path w content pre ms table_content :
  files w !! readme_path = Some content →
  search header_pattern content = Some (pre, ms, table_content) →
  parse_readme readme_path w
  = Some (flat_map row_entries (data_lines table_content), w).
Proof.
  intros Hf Hs. unfold parse_readme. rewrite Hf, Hs. cbv zeta.
  fold (data_lines table_content). by rewrite rows_spec.
Qed.

(** C6: a line that begins with the delimiter but has fewer than six
    cells adds no record and prints nothing, and the lines after it are
    processed as if it were not there. *)
Theorem short_row_is_dropped readme_path w content pre ms table_content
    before line after :
  files w !! readme_path = Some content →
  search header_pattern content = Some (pre, ms, table_content) →
  data_lines table_content = before ++ line :: after →
  is_row line = true →
  length (cells line) < 6 →
  rows (before ++ line :: after) [] = rows (before ++ after) []
  ∧ ∃ data, rows (before ++ after) [] = Some data
            ∧ parse_readme readme_path w = Some (data, w).
Proof.
  intros Hf Hs Hl Hrow Hlen.
  pose proof (row_entries_short line Hlen) as Hnone.
  assert (flat_map row_entries (before ++ line :: after)
          = flat_map row_entries (before ++ after)) as Heq.
  { rewrite !flat_map_app. cbn [flat_map]. by rewrite Hnone. }
  split; [by rewrite !rows_spec, Heq|].
  eexists. split; [apply rows_spec|].
  erewrite parse_readme_found; [|done..]. by rewrite Hl, Heq.
Qed.

(** C9: a row of six cells or more among the lines that the extractor
    goes over gives a record in the result of [parse_readme], placed
    between the records of the lines before it and of the lines after it;
    its [bib] is empty when there are exactly six cells and is the seventh
    cell otherwise. *)
Theorem six_cells_give_empty_bib readme_path w content pre ms table_content
    before line after :
  files w !! readme_path = Some content →
  search header_pattern content = Some (pre, ms, table_content) →
  data_lines table_content = before ++ line :: after →
  is_row line = true →
  6 ≤ length (cells line) →
  ∃ e r1 r2,
    rows before [] = Some r1 ∧ rows after [] = Some r2
    ∧ parse_readme readme_path w = Some (r1 ++ e :: r2, w)
    ∧ (length (cells line) = 6 → bib e = [])
    ∧ (6 < length (cells line) → cells line !! 6 = Some (bib e)).
Proof.
  intros Hf Hs Hl Hrow Hlen.
  exists (entry_of (cells line)), (flat_map row_entries before),
    (flat_map row_entries after).
  split_and!; try apply rows_spec.
  - rewrite (parse_readme_found readme_path w content pre ms table_content Hf Hs).
    rewrite Hl, flat_map_app. cbn [flat_map].
    by rewrite (row_entries_row line Hrow Hlen).
  - intros E. cbn [entry_of bib]. by rewrite E.
  - intros E. cbn [entry_of bib]. pose proof E as E6.
    apply Nat.ltb_lt in E6. rewrite E6. by apply cell_lookup.
Qed.

(** C5: when the header row occurs nowhere in the README, [parse_readme]
    prints the "could not find the table header" line and returns no
    entries, and the script stops there: [update_index_html] is not run
    and no file changes. *)
Theorem missing_header w content :
  files w !! "README.md" = Some content →
  ¬ occurs header_pattern content →
  ∃ w', parse_readme "README.md" w = Some ([], w')
        ∧ main w = Some w'
        ∧ stdout w'
          = stdout w ++ ["Error: Could not find the table header in README.md"]
        ∧ files w' = files w.
Proof.
  intros Hf Hno. apply search_None in Hno.
  assert (parse_readme "README.md" w
          = Some ([], print "Error: Could not find the table header in README.md" w))
    as Hp.
  { unfold parse_readme. by rewrite Hf, Hno. }
  eexists. split_and!; [done| |done|done].
  unfold main. by rewrite Hp.
Qed.

(** C1: on [interrupted_readme] the extractor returns both rows, the one
    before the blank line and the heading and the one after them: the
    lines that do not begin with the delimiter are passed over (line 41),
    and the [break] of line 46 is never reached. *)
Theorem rows_after_the_table_are_extracted :
  parse_readme "README.md" interrupted_world
  = Some ([ {| time := str "2024"; venue := str "A"; paper := str "P1";
               question := str "Q1"; method := str "M1"; remark := str "R1";
               bib := str "B1" |};
            {| time := str "2025"; venue := str "B"; paper := str "P2";
               question := str "Q2"; method := str "M2"; remark := str "R2";
               bib := str "B2" |} ],
          interrupted_world).
Proof. vm_compute. reflexivity. Qed.

(** In general a line that does not begin with the delimiter is passed
    over like a short row; it does not end the loop. *)
Lemma other_line_is_passed_over before line after data :
  is_row line = false →
  rows (before ++ line :: after) data = rows (before ++ after) data.
Proof.
  intros H. rewrite !rows_spec, !flat_map_app. cbn [flat_map].
  unfold row_entries at 2. by rewrite H.
Qed.

(** ** Links and bold spans *)

Lemma bracket_first (body rest a b : pystr) :
  contains (str "](") body = false → body = a ++ b → b ≠ [] →
  startswith (str "](") (b ++ str "](" ++ rest) = false.
Proof.
  intros Hc -> Hb. rewrite contains_false in Hc.
  specialize (Hc a b eq_refl).
  destruct b as [|x [|y b]]; [done| |].
  - simpl in *. by rewrite andb_false_r.
  - simpl in *. done.
Qed.

Lemma paren_first (body rest a b : pystr) :
  contains (str ")") body = false → body = a ++ b → b ≠ [] →
  startswith (str ")") (b ++ str ")" ++ rest) = false.
Proof.
  intros Hc -> Hb. rewrite contains_false in Hc.
  specialize (Hc a b eq_refl).
  destruct b as [|x b]; [done|]. simpl in *. done.
Qed.

Lemma stars_first (body rest a b : pystr) :
  contains (str "**") (body ++ str "*") = false → body = a ++ b → b ≠ [] →
  startswith (str "**") (b ++ str "**" ++ rest) = false.
Proof.
  intros Hc -> Hb. rewrite contains_false in Hc.
  specialize (Hc a (b ++ str "*")). rewrite <- app_assoc in Hc.
  specialize (Hc eq_refl).
  destruct b as [|x [|y b]]; [done| |].
  - simpl in *. done.
  - simpl in *. done.
Qed.

Lemma run_link k rest :
  link_ok k →
  ∃ ms, run link_pattern (link_md k ++ rest) [] = Some (ms, rest)
        ∧ expand link_template (link_md k ++ rest) ms rest = link_html k.
Proof.
  intros (Hl & Hlc & Hu & Huc). eexists. split.
  - unfold link_pattern, link_md. rewrite <- !app_assoc.
    rewrite run_lits_app. cbn [app run].
    apply rep_lazy_first; [done| |].
    + intros a b Hab Hb. cbn [run]. rewrite run_lits.
      by rewrite (bracket_first (label k) _ a b).
    + cbn [run]. rewrite run_lits_app. cbn [app run].
      apply rep_lazy_first; [done| |].
      * intros a b Hab Hb. cbn [run]. rewrite run_lits_end.
        by rewrite (paren_first (url k) _ a b).
      * cbn [run]. rewrite run_lits_end, startswith_app, drop_app_length.
        reflexivity.
  - unfold link_template, link_html.
    rewrite !expand_app, !expand_chrs, !expand_grp.
    unfold group. cbn [mark_at Nat.eqb Nat.mul Nat.add].
    rewrite !between_app. by rewrite <- !app_assoc.
Qed.

Lemma run_bold t rest :
  bold_ok t →
  ∃ ms, run bold_pattern (bold_md t ++ rest) [] = Some (ms, rest)
        ∧ expand bold_template (bold_md t ++ rest) ms rest = bold_html t.
Proof.
  intros (Ht & Htc). eexists. split.
  - unfold bold_pattern, bold_md. rewrite <- !app_assoc.
    rewrite run_lits_app. cbn [app run].
    apply rep_lazy_first; [done| |].
    + intros a b Hab Hb. cbn [run]. rewrite run_lits_end.
      by rewrite (stars_first t _ a b).
    + cbn [run]. rewrite run_lits_end, startswith_app, drop_app_length.
      reflexivity.
  - unfold bold_template, bold_html.
    rewrite !expand_app, !expand_chrs, !expand_grp.
    unfold group. cbn [mark_at Nat.eqb Nat.mul Nat.add].
    by rewrite !between_app.
Qed.

Lemma link_md_nonempty k : link_md k ≠ [].
Proof. done. Qed.

Lemma bold_md_nonempty t : bold_md t ≠ [].
Proof. done. Qed.

(** [linkify] and [embolden] along a scanned cell. *)
Lemma linkify_document segs tail :
  scanned_by link_pattern link_ok link_md segs tail →
  linkify (document link_md segs tail) = document link_html segs tail.
Proof.
  unfold linkify.
  apply (sub_from_document link_pattern link_template link_ok link_md link_html);
    [apply run_link|apply link_md_nonempty].
Qed.

Lemma embolden_document segs tail :
  scanned_by bold_pattern bold_ok bold_md segs tail →
  embolden (document bold_md segs tail) = document bold_html segs tail.
Proof.
  unfold embolden.
  apply (sub_from_document bold_pattern bold_template bold_ok bold_md bold_html);
    [apply run_bold|apply bold_md_nonempty].
Qed.

(** C7: in the record of a row, [paper] is the third cell with every
    link that the scan meets rewritten to an anchor, the text between the
    links and after them kept as it is; [[Foo](http://x)] becomes the
    anchor to [http://x] with text [Foo]. *)
Theorem paper_links_are_rewritten before line after segs tail :
  is_row line = true →
  6 ≤ length (cells line) →
  cells line !! 2 = Some (document link_md segs tail) →
  scanned_by link_pattern link_ok link_md segs tail →
  (∃ e r1 r2,
     rows before [] = Some r1 ∧ rows after [] = Some r2
     ∧ rows (before ++ line :: after) [] = Some (r1 ++ e :: r2)
     ∧ paper e = document link_html segs tail)
  ∧ linkify (str "[Foo](http://x)")
    = str "<a href=" ++ [DQ] ++ str "http://x" ++ [DQ] ++ str ">Foo</a>".
Proof.
  intros Hrow Hlen Hc Hsc. split; [|by vm_compute].
  exists (entry_of (cells line)), (flat_map row_entries before),
    (flat_map row_entries after).
  split_and!; try apply rows_spec.
  - by apply rows_middle.
  - cbn [entry_of paper]. rewrite (cell_Some _ _ _ Hc).
    by apply linkify_document.
Qed.

(** C8: in the record of a row, [question] and [method] are the fourth
    and fifth cells with every bold span that the scan meets rewritten to
    a [strong] element, each cell on its own; [time], [venue], [remark]
    and [bib] are the cells as they are. *)
Theorem bold_spans_are_rewritten before line after qsegs qtail msegs mtail :
  is_row line = true →
  6 ≤ length (cells line) →
  cells line !! 3 = Some (document bold_md qsegs qtail) →
  scanned_by bold_pattern bold_ok bold_md qsegs qtail →
  cells line !! 4 = Some (document bold_md msegs mtail) →
  scanned_by bold_pattern bold_ok bold_md msegs mtail →
  ∃ e r1 r2,
    rows before [] = Some r1 ∧ rows after [] = Some r2
    ∧ rows (before ++ line :: after) [] = Some (r1 ++ e :: r2)
    ∧ question e = document bold_html qsegs qtail
    ∧ method e = document bold_html msegs mtail
    ∧ cells line !! 0 = Some (time e)
    ∧ cells line !! 1 = Some (venue e)
    ∧ cells line !! 5 = Some (remark e)
    ∧ (∀ c, cells line !! 6 = Some c → bib e = c).
Proof.
  intros Hrow Hlen Hq Hqs Hm Hms.
  assert (∀ i, i < 6 → cells line !! i = Some (cell (cells line) i)) as Hcell.
  { intros i Hi. apply cell_lookup. lia. }
  exists (entry_of (cells line)), (flat_map row_entries before),
    (flat_map row_entries after).
  split_and!; try apply rows_spec.
  - by apply rows_middle.
  - cbn [entry_of question]. rewrite (cell_Some _ _ _ Hq).
    by apply embolden_document.
  - cbn [entry_of method]. rewrite (cell_Some _ _ _ Hm).
    by apply embolden_document.
  - apply Hcell. lia.
  - apply Hcell. lia.
  - apply Hcell. lia.
  - intros c Hc. cbn [entry_of bib]. rewrite (cell_Some _ _ _ Hc).
    apply lookup_lt_Some in Hc. apply Nat.ltb_lt in Hc. by rewrite Hc.
Qed.

(** ** Instances *)

Ltac check :=
  first
    [ apply (proj1 (quietb_quiet _ _ _)); vm_compute; reflexivity
    | apply (proj1 (search_None _ _)); vm_compute; reflexivity
    | vm_compute; reflexivity
    | discriminate ].

Ltac check_scan :=
  cbn [scanned_by]; unfold scanned, statement_ok, link_ok, bold_ok;
  cbn [scanned_by]; split_and!; check.

Lemma injected_json_is_verbatim_witness :
  replace [BSL] [BSL; BSL] (dumps [sample_entry])
  = flat_map double_backslash (dumps [sample_entry])
  ∧ parse_template (ngroups data_pattern)
      (str "\1" ++ replace [BSL] [BSL; BSL] (dumps [sample_entry]) ++ str ";")
    = Some (Grp 1 :: map Chr (dumps [sample_entry] ++ str ";"))
  ∧ ∃ st later,
      statement_ok st
      ∧ sample_html = (str "<script>" ++ [NL]) ++ old_text st ++ NL :: str "</script>"
      ∧ update_index_html [sample_entry] "index.html" sample_world
        = Some (print (success "index.html" [sample_entry])
                  (write "index.html"
                     ((str "<script>" ++ [NL]) ++ prefix_of st
                      ++ dumps [sample_entry] ++ str ";" ++ later)
                     sample_world)).
Proof.
  apply (injected_json_is_verbatim [sample_entry] "index.html" sample_world
           sample_html (str "<script>" ++ [NL]) sample_marks
           (NL :: str "</script>")); check.
Defined.

Lemma missing_injection_point_witness :
  ∃ w', update_index_html [sample_entry] "index.html" bare_world = Some w'
        ∧ stdout w'
          = stdout bare_world
            ++ ["Error: Could not find 'const data = [...]' in index.html"]
        ∧ files w' = files bare_world.
Proof.
  apply (missing_injection_point [sample_entry] "index.html" bare_world
           (str "const data = [1, 2]")); [check|].
  intros H. apply has_statement_occurs in H. revert H. check.
Defined.

Lemma every_statement_is_replaced_witness :
  update_index_html [sample_entry] "index.html" two_statements_world
  = Some (print (success "index.html" [sample_entry])
            (write "index.html"
               (document (new_text (dumps [sample_entry])) two_statements
                  (NL :: str "</script>"))
               two_statements_world)).
Proof.
  apply (every_statement_is_replaced [sample_entry] "index.html"
           two_statements_world two_statements (NL :: str "</script>")).
  - check.
  - unfold two_statements. check_scan.
  - simpl. lia.
Defined.

Lemma rerun_is_identity_witness :
  ∃ w1 w2 out,
    update_index_html [plain_entry] "index.html" sample_world = Some w1
    ∧ files w1 !! "index.html" = Some out
    ∧ update_index_html [plain_entry] "index.html" w1 = Some w2
    ∧ files w2 !! "index.html" = Some out
    ∧ files w2 = files w1.
Proof.
  apply (rerun_is_identity [plain_entry] "index.html" sample_world sample_html).
  - check.
  - exists (str "<script>" ++ [NL]), (str " "), (str " "), (str " "),
      (str "1, 2"), (NL :: str "</script>").
    split_and!; check.
  - check.
Defined.

Lemma missing_header_witness :
  ∃ w', parse_readme "README.md" headless_world = Some ([], w')
        ∧ main headless_world = Some w'
        ∧ stdout w'
          = stdout headless_world
            ++ ["Error: Could not find the table header in README.md"]
        ∧ files w' = files headless_world.
Proof.
  apply (missing_header headless_world
           (text ["# Papers"; "| Time | Venue | Paper |"; "| a | b | c |"]));
    check.
Defined.

Lemma short_row_is_dropped_witness :
  rows ([] ++ str "| a | b | c | d | e |" :: [str "| 2024 | V | P | Q | M | R | B |"]) []
  = rows ([] ++ [str "| 2024 | V | P | Q | M | R | B |"]) []
  ∧ ∃ data, rows ([] ++ [str "| 2024 | V | P | Q | M | R | B |"]) [] = Some data
            ∧ parse_readme "README.md" short_row_world = Some (data, short_row_world).
Proof.
  apply (short_row_is_dropped "README.md" short_row_world short_row_readme
           [] short_row_marks short_row_rest); check.
Defined.

Lemma six_cells_give_empty_bib_witness :
  ∃ e r1 r2,
    rows [] [] = Some r1
    ∧ rows [str "| 2024 | V | P | Q | M | R | B |"] [] = Some r2
    ∧ parse_readme "README.md" six_cells_world
      = Some (r1 ++ e :: r2, six_cells_world)
    ∧ (length (cells (str "| a | b | c | d | e | f |")) = 6 → bib e = [])
    ∧ (6 < length (cells (str "| a | b | c | d | e | f |"))
       → cells (str "| a | b | c | d | e | f |") !! 6 = Some (bib e)).
Proof.
  apply (six_cells_give_empty_bib "README.md" six_cells_world six_cells_readme
           [] [] six_cells_rest []
           (str "| a | b | c | d | e | f |")
           [str "| 2024 | V | P | Q | M | R | B |"]); check.
Defined.

Lemma paper_links_are_rewritten_witness :
  (∃ e r1 r2,
     rows [] [] = Some r1 ∧ rows [] [] = Some r2
     ∧ rows ([] ++ two_links_line :: []) [] = Some (r1 ++ e :: r2)
     ∧ paper e = document link_html two_links (str "."))
  ∧ linkify (str "[Foo](http://x)")
    = str "<a href=" ++ [DQ] ++ str "http://x" ++ [DQ] ++ str ">Foo</a>".
Proof.
  apply (paper_links_are_rewritten [] two_links_line [] two_links (str ".")).
  - check.
  - vm_compute. lia.
  - check.
  - unfold two_links. check_scan.
Defined.

Lemma bold_spans_are_rewritten_witness :
  ∃ e r1 r2,
    rows [] [] = Some r1 ∧ rows [] [] = Some r2
    ∧ rows ([] ++ bold_line :: []) [] = Some (r1 ++ e :: r2)
    ∧ question e = document bold_html [(str "why ", str "this")] (str " works")
    ∧ method e = document bold_html [([], str "M"); (str " and ", str "N")] []
    ∧ cells bold_line !! 0 = Some (time e)
    ∧ cells bold_line !! 1 = Some (venue e)
    ∧ cells bold_line !! 5 = Some (remark e)
    ∧ (∀ c, cells bold_line !! 6 = Some c → bib e = c).
Proof.
  apply (bold_spans_are_rewritten [] bold_line []
           [(str "why ", str "this")] (str " works")
           [([], str "M"); (str " and ", str "N")] []).
  - check.
  - vm_compute. lia.
  - check.
  - check_scan.
  - check.
  - check_scan.
Defined.

(** * Further properties of the program *)

(** ** What the two functions do to the files and to the output *)

Lemma search_Some_occurs p s pre ms rest :
  search p s = Some (pre, ms, rest) → occurs p s.
Proof.
  intros H. apply search_Some in H as (t & -> & Hrun & _).
  apply run_sound in Hrun as (m & -> & Hm). by exists pre, m, rest.
Qed.

(** Whenever [parse_readme] returns, the files are as before, it has
    printed at most one line, and when it has printed it returns no
    entries. *)
Theorem parse_readme_only_reads readme_path w data w' :
  parse_readme readme_path w = Some (data, w') →
  files w' = files w
  ∧ (stdout w' = stdout w
     ∨ data = [] ∧ ∃ line, stdout w' = stdout w ++ [line]).
Proof.
  unfold parse_readme. intros H.
  destruct (files w !! readme_path) as [content|].
  - destruct (search header_pattern content) as [[[pre ms] table_content]|].
    + cbv zeta in H. rewrite rows_spec in H. injection H as <- <-.
      split; [done|]. by left.
    + injection H as <- <-. split; [done|]. right. split; [done|]. by eexists.
  - injection H as <- <-. split; [done|]. right. split; [done|]. by eexists.
Qed.

(** Whenever [update_index_html] returns, it has printed exactly one
    line, and it has either left the files as they were or overwritten
    [html_path], and this only when the file was there and held a
    statement; the line is then the success line. *)
Theorem update_writes_only_html_path data html_path w w' :
  update_index_html data html_path w = Some w' →
  ∃ line, stdout w' = stdout w ++ [line]
      ∧ (files w' = files w
         ∨ ∃ html, files w !! html_path = Some html
                   ∧ has_statement html
                   ∧ line = success html_path data
                   ∧ files w'
                     = <[html_path :=
                           sub_from data_pattern (data_template data) 0 html]>
                         (files w)).
Proof.
  intros H. destruct (files w !! html_path) as [html|] eqn:Hf.
  - destruct (search data_pattern html) as [r|] eqn:Hs.
    + assert (occurs data_pattern html) as Ho.
      { destruct r as [[pre ms] rest]. by eapply search_Some_occurs. }
      rewrite (update_found data html_path w html Hf Ho) in H.
      injection H as <-. eexists. split; [reflexivity|].
      right. exists html. split_and!; [done|by apply has_statement_occurs|done..].
    + apply search_None in Hs.
      rewrite (update_not_found data html_path w html Hf Hs) in H.
      injection H as <-. eexists. split; [reflexivity|]. by left.
  - unfold update_index_html in H. rewrite Hf in H.
    injection H as <-. eexists. split; [reflexivity|]. by left.
Qed.

(** ** The script as a whole *)

(** Whenever the script ends normally, it has printed at most one line,
    has left every file other than [index.html] as it was, and has not
    created [index.html] when it was missing. *)
Theorem main_touches_only_index_html w w' :
  main w = Some w' →
  (∀ q, q ≠ "index.html" → files w' !! q = files w !! q)
  ∧ (stdout w' = stdout w ∨ ∃ line, stdout w' = stdout w ++ [line])
  ∧ (files w !! "index.html" = None → files w' = files w).
Proof.
  unfold main. intros H.
  destruct (parse_readme "README.md" w) as [[data w1]|] eqn:Hp; [|done].
  apply parse_readme_only_reads in Hp as [Hf1 Ho1].
  cbn [mbind option_bind] in H.
  destruct data as [|e data].
  - injection H as <-. rewrite Hf1. split_and!; [done| |done].
    destruct Ho1 as [?|[_ ?]]; [by left|by right].
  - destruct Ho1 as [Ho1|[? _]]; [|done].
    apply update_writes_only_html_path in H as (line & Ho2 & Hf2).
    rewrite Ho2, Ho1. split_and!.
    + intros q Hq. destruct Hf2 as [->|(html & _ & _ & _ & ->)].
      * by rewrite Hf1.
      * rewrite lookup_insert_ne by done. by rewrite Hf1.
    + right. by exists line.
    + intros Hnone. destruct Hf2 as [->|(html & Hh & _)]; [done|].
      rewrite Hf1 in Hh. congruence.
Qed.

(** Without a README the script prints that it was not found and stops:
    [index.html] is not read. *)
Theorem main_without_readme w :
  files w !! "README.md" = None →
  main w = Some (print "Error: README.md not found." w).
Proof.
  intros H. unfold main, parse_readme. by rewrite H.
Qed.

(** A README whose header is found but whose lines give no record
    (none begins with the delimiter and has six cells) makes the script
    end without printing anything and without touching [index.html]. *)
Theorem main_without_rows w content pre ms table_content :
  files w !! "README.md" = Some content →
  search header_pattern content = Some (pre, ms, table_content) →
  Forall (λ line, is_row line = false ∨ length (cells line) < 6)
    (data_lines table_content) →
  main w = Some w.
Proof.
  intros Hf Hs Hall. unfold main.
  rewrite (parse_readme_found "README.md" w content pre ms table_content Hf Hs).
  cbn [mbind option_bind].
  assert (flat_map row_entries (data_lines table_content) = []) as ->; [|done].
  induction Hall as [|line lines Hl _ IH]; [done|].
  cbn [flat_map]. rewrite IH, app_nil_r.
  destruct Hl as [Hl|Hl].
  - unfold row_entries. by rewrite Hl.
  - by apply row_entries_short.
Qed.

(** With records extracted but no [index.html], the script prints that
    the file was not found and creates nothing. *)
Theorem main_without_html w content pre ms table_content :
  files w !! "README.md" = Some content →
  search header_pattern content = Some (pre, ms, table_content) →
  flat_map row_entries (data_lines table_content) ≠ [] →
  files w !! "index.html" = None →
  main w = Some (print "Error: index.html not found." w).
Proof.
  intros Hf Hs Hne Hh. unfold main.
  rewrite (parse_readme_found "README.md" w content pre ms table_content Hf Hs).
  cbn [mbind option_bind].
  destruct (flat_map row_entries (data_lines table_content)) as [|e data];
    [done|].
  unfold update_index_html. by rewrite Hh.
Qed.

(** End to end: with the header found, at least one record, and an
    [index.html] that holds statements, the script writes the document
    back with every scanned statement carrying the JSON of all the
    records, and prints the success line with their number. *)
Theorem main_injects_all_records w content pre ms table_content segs tail :
  files w !! "README.md" = Some content →
  search header_pattern content = Some (pre, ms, table_content) →
  flat_map row_entries (data_lines table_content) ≠ [] →
  files w !! "index.html" = Some (document old_text segs tail) →
  scanned segs tail →
  segs ≠ [] →
  let data := flat_map row_entries (data_lines table_content) in
  main w
  = Some (print (success "index.html" data)
            (write "index.html"
               (document (new_text (dumps data)) segs tail) w)).
Proof.
  intros Hf Hs Hne Hh Hsc Hsegs data. unfold main.
  rewrite (parse_readme_found "README.md" w content pre ms table_content Hf Hs).
  cbn [mbind option_bind]. fold data.
  destruct data as [|e rest] eqn:E; [done|]. rewrite <- E.
  rewrite (update_found data "index.html" w _ Hh
             (statements_occur segs tail Hsegs Hsc)).
  by rewrite sub_from_statements.
Qed.

(** ** Order and number of the records *)

(** The loop keeps what was built so far, adds the records of the lines
    in the order of the lines, one for each line that gives a record, and
    the records of two runs of lines are those of the first followed by
    those of the second. *)
Theorem rows_in_order l1 l2 data :
  ∃ r1 r2,
    rows l1 [] = Some r1 ∧ rows l2 [] = Some r2
    ∧ rows (l1 ++ l2) data = Some (data ++ r1 ++ r2)
    ∧ r1 = map (λ line, entry_of (cells line)) (List.filter gives_record l1)
    ∧ length r1 ≤ length l1.
Proof.
  exists (flat_map row_entries l1), (flat_map row_entries l2).
  assert (∀ l, flat_map row_entries l
               = map (λ line, entry_of (cells line)) (List.filter gives_record l))
    as Hmap.
  { induction l as [|line l IH]; [done|]. cbn [flat_map List.filter].
    rewrite IH. unfold row_entries, gives_record.
    by destruct (is_row line && (6 <=? length (cells line))). }
  split_and!; try apply rows_spec.
  - apply rows_app.
  - apply Hmap.
  - rewrite Hmap, length_map. apply filter_length_le.
Qed.

(** ** The separator row *)

(** When the first line after the header begins with the delimiter and
    holds three dashes in a row, it is left out, whatever else it
    holds; otherwise it is processed like every other line. *)
Theorem first_line_with_dashes_is_skipped readme_path w content pre ms
    table_content line0 lines :
  files w !! readme_path = Some content →
  search header_pattern content = Some (pre, ms, table_content) →
  split NL (strip table_content) = line0 :: lines →
  parse_readme readme_path w
  = Some (flat_map row_entries
            (if is_row line0 && contains (str "---") line0
             then lines else line0 :: lines), w).
Proof.
  intros Hf Hs Hl.
  rewrite (parse_readme_found readme_path w content pre ms table_content Hf Hs).
  unfold data_lines, is_row. rewrite Hl. cbn [head default]. cbv [id].
  by destruct (startswith (str "|") (strip line0) && contains (str "---") line0).
Qed.

(** ** Links and bold spans: every cell *)

Lemma contains_intro (t a b : pystr) : contains t (a ++ t ++ b) = true.
Proof.
  assert (∀ s, contains t s
               = startswith t s
                 || match s with [] => false | _ :: s' => contains t s' end)
    as Heq by (by intros []).
  induction a as [|c a IH].
  - cbn [app]. by rewrite Heq, startswith_app.
  - rewrite Heq. cbn [app]. by rewrite IH, orb_true_r.
Qed.

Lemma suffix_snoc (t a b : pystr) (x : char) :
  t ++ [x] = a ++ b → b = [] ∨ ∃ b', b = b' ++ [x] ∧ t = a ++ b'.
Proof.
  revert t. induction a as [|c a IH]; intros t E.
  - right. exists t. split; [|done]. symmetry. exact E.
  - destruct t as [|d t].
    + left. simpl in E. injection E as _ E. symmetry in E.
      by apply app_eq_nil in E as [_ ->].
    + simpl in E. injection E as -> E.
      destruct (IH _ E) as [->|(b' & -> & ->)].
      * by left.
      * right. by exists b'.
Qed.

(** What [link_pattern] takes is a link. *)
Lemma run_link_inv s ms rest :
  run link_pattern s [] = Some (ms, rest) →
  ∃ k, link_ok k ∧ s = link_md k ++ rest.
Proof.
  intros H. unfold link_pattern in H. rewrite run_lits in H.
  destruct (startswith (str "[") s) eqn:E; [|done].
  apply startswith_true in E as [r ->]. rewrite drop_app_length in H.
  cbn [app run] in H.
  apply rep_lazy_inv in H as (l & s1 & -> & Hl & H & Hno).
  cbn [run] in H. rewrite run_lits in H.
  destruct (startswith (str "](") s1) eqn:E; [|done].
  apply startswith_true in E as [r ->]. rewrite drop_app_length in H.
  cbn [app run] in H.
  apply rep_lazy_inv in H as (u & s2 & -> & Hu & H & Hno2).
  cbn [run] in H. rewrite run_lits_end in H.
  destruct (startswith (str ")") s2) eqn:E; [|done].
  apply startswith_true in E as [r ->]. rewrite drop_app_length in H.
  injection H as <- <-. rename r into rest.
  exists {| label := l; url := u |}. split; [split_and!|].
  - exact Hl.
  - cbn [label]. apply contains_false. intros a b ->.
    destruct (startswith (str "](") b) eqn:Eb; [|done]. exfalso.
    apply startswith_true in Eb as [b' ->].
    specialize (Hno a (str "](" ++ b') eq_refl ltac:(done)).
    cbn [run] in Hno. rewrite <- app_assoc, run_lits_app in Hno.
    cbn [app run] in Hno.
    rewrite !forallb_app in Hl. apply andb_prop in Hl as [_ Hl].
    apply andb_prop in Hl as [_ Hl].
    match type of Hno with
    | rep Lazy dot ?K 0 ?X = None =>
        assert (is_Some (rep Lazy dot K 0 X)) as [res Hres]
    end.
    { rewrite (app_assoc b'), (app_assoc (b' ++ str "](")), <- (app_assoc b').
      apply rep_complete.
      - rewrite !forallb_app. by rewrite Hl, Hu.
      - lia.
      - cbn [run]. by rewrite run_lits_end, startswith_app. }
    pose proof (eq_trans (eq_sym Hno) Hres) as Habs. discriminate Habs.
  - exact Hu.
  - cbn [url]. apply contains_false. intros a b ->.
    destruct b as [|x b]; [done|].
    specialize (Hno2 a (x :: b) eq_refl ltac:(done)).
    cbn [run] in Hno2. rewrite run_lits_end in Hno2.
    destruct (startswith (str ")") ((x :: b) ++ str ")" ++ rest)) eqn:Es; [done|].
    cbn [app startswith str] in Es |- *. exact Es.
  - unfold link_md. cbn [label url]. by rewrite <- !app_assoc.
Qed.

(** What [bold_pattern] takes is a bold span. *)
Lemma run_bold_inv s ms rest :
  run bold_pattern s [] = Some (ms, rest) →
  ∃ t, bold_ok t ∧ s = bold_md t ++ rest.
Proof.
  intros H. unfold bold_pattern in H. rewrite run_lits in H.
  destruct (startswith (str "**") s) eqn:E; [|done].
  apply startswith_true in E as [r ->]. rewrite drop_app_length in H.
  cbn [app run] in H.
  apply rep_lazy_inv in H as (t & s1 & -> & Ht & H & Hno).
  cbn [run] in H. rewrite run_lits_end in H.
  destruct (startswith (str "**") s1) eqn:E; [|done].
  apply startswith_true in E as [r ->]. rewrite drop_app_length in H.
  injection H as <- <-. rename r into rest.
  exists t. split; [split|].
  - exact Ht.
  - apply contains_false. intros a b E.
    apply (suffix_snoc t a b 42%N) in E as [->|(b' & -> & ->)]; [done|].
    destruct b' as [|x b']; [done|].
    specialize (Hno a (x :: b') eq_refl ltac:(done)).
    cbn [run] in Hno. rewrite run_lits_end in Hno.
    destruct (startswith (str "**") ((x :: b') ++ str "**" ++ rest)) eqn:Es;
      [done|].
    destruct (startswith (str "**") ((x :: b') ++ [42%N])) eqn:Eb; [|done].
    apply (startswith_app_mono _ _ (42%N :: rest)) in Eb.
    rewrite <- app_assoc in Eb.
    pose proof (eq_trans (eq_sym Es) Eb) as Habs. discriminate Habs.
  - unfold bold_md. by rewrite <- !app_assoc.
Qed.

(** [linkify] on any text: the text is, in one way, a sequence of gaps
    and links that the scan meets, and the result is the same sequence
    with each link as an anchor. *)
Theorem linkify_every_cell (s : pystr) :
  ∃ segs tail,
    s = document link_md segs tail
    ∧ scanned_by link_pattern link_ok link_md segs tail
    ∧ linkify s = document link_html segs tail.
Proof.
  destruct (document_scanned link_pattern link_ok link_md
              link_md_nonempty run_link_inv s) as (segs & tail & -> & Hsc).
  exists segs, tail. split_and!; [done..|]. by apply linkify_document.
Qed.

(** [embolden] on any text, likewise. *)
Theorem embolden_every_cell (s : pystr) :
  ∃ segs tail,
    s = document bold_md segs tail
    ∧ scanned_by bold_pattern bold_ok bold_md segs tail
    ∧ embolden s = document bold_html segs tail.
Proof.
  destruct (document_scanned bold_pattern bold_ok bold_md
              bold_md_nonempty run_bold_inv s) as (segs & tail & -> & Hsc).
  exists segs, tail. split_and!; [done..|]. by apply embolden_document.
Qed.

(** A cell without ["]("] has no link and is kept as it is, brackets
    included. *)
Theorem cell_without_link_is_kept (s : pystr) :
  contains (str "](") s = false → linkify s = s.
Proof.
  intros Hc.
  destruct (linkify_every_cell s) as (segs & tail & E & _ & ->).
  destruct segs as [|[g k] segs]; [done|]. exfalso.
  rewrite E in Hc. cbn [document] in Hc.
  assert (g ++ link_md k ++ document link_md segs tail
          = (g ++ str "[" ++ label k) ++ str "]("
            ++ (url k ++ str ")" ++ document link_md segs tail)) as E2.
  { unfold link_md. by rewrite <- !app_assoc. }
  rewrite E2 in Hc. by rewrite contains_intro in Hc.
Qed.

(** A cell without ["**"] is kept as it is. *)
Theorem cell_without_bold_is_kept (s : pystr) :
  contains (str "**") s = false → embolden s = s.
Proof.
  intros Hc.
  destruct (embolden_every_cell s) as (segs & tail & E & _ & ->).
  destruct segs as [|[g t] segs]; [done|]. exfalso.
  rewrite E in Hc. cbn [document] in Hc.
  assert (g ++ bold_md t ++ document bold_md segs tail
          = g ++ str "**"
            ++ (t ++ str "**" ++ document bold_md segs tail)) as E2.
  { unfold bold_md. by rewrite <- !app_assoc. }
  rewrite E2 in Hc. by rewrite contains_intro in Hc.
Qed.

(** ** The injector on every document *)

(** Whatever the HTML file holds, it is in one way a sequence of gaps
    and statements that the scan meets; without statements the injector
    prints the error and writes nothing, otherwise it writes the same
    sequence with the JSON in every statement. *)
Theorem update_every_document data html_path w html :
  files w !! html_path = Some html →
  ∃ segs tail,
    html = document old_text segs tail
    ∧ scanned segs tail
    ∧ update_index_html data html_path w
      = Some (match segs with
              | [] => print "Error: Could not find 'const data = [...]' in index.html" w
              | _ :: _ =>
                  print (success html_path data)
                    (write html_path
                       (document (new_text (dumps data)) segs tail) w)
              end).
Proof.
  intros Hf.
  destruct (document_scanned data_pattern statement_ok old_text
              old_text_nonempty run_statement_inv html)
    as (segs & tail & -> & Hsc).
  exists segs, tail. split_and!; [done..|].
  destruct segs as [|sg segs].
  - by apply (update_not_found data html_path w tail).
  - rewrite (update_found data html_path w _ Hf
               (statements_occur (sg :: segs) tail ltac:(done) Hsc)).
    by rewrite sub_from_statements.
Qed.

(** ** The serialized JSON *)

Lemma hex_digit_plain (n : N) : (n < 16)%N → plain (hex_digit n) = true.
Proof.
  intros Hn. unfold plain, hex_digit.
  destruct (n <? 10)%N eqn:E.
  - apply N.ltb_lt in E. apply orb_true_intro. right.
    apply andb_true_intro. split; apply N.leb_le; lia.
  - apply N.ltb_ge in E. apply orb_true_intro. right.
    apply andb_true_intro. split; apply N.leb_le; lia.
Qed.

Lemma u_escape_plain (n : N) : forallb plain (u_escape n) = true.
Proof.
  unfold u_escape, hex4. cbn [forallb].
  rewrite !hex_digit_plain by (apply N.mod_lt; lia). reflexivity.
Qed.

Lemma encode_char_plain (c : char) : forallb plain (encode_char c) = true.
Proof.
  unfold encode_char.
  repeat match goal with
         | |- context [if (c =? ?k)%N then _ else _] =>
             destruct (c =? k)%N; [reflexivity|]
         end.
  destruct ((32 <=? c) && (c <=? 126))%N eqn:E.
  - cbn [forallb]. unfold plain. by rewrite E, orb_true_r.
  - destruct (c <? 65536)%N; [apply u_escape_plain|].
    cbv zeta. by rewrite forallb_app, !u_escape_plain.
Qed.

Lemma encode_basestring_plain (s : pystr) :
  forallb plain (encode_basestring_ascii s) = true.
Proof.
  unfold encode_basestring_ascii. cbn [forallb].
  rewrite forallb_app. cbn [forallb].
  change (plain DQ) with true. rewrite andb_true_r. cbn [andb].
  induction s as [|c s IH]; [done|].
  cbn [flat_map]. by rewrite forallb_app, encode_char_plain, IH.
Qed.

Lemma join_plain (sep : pystr) (l : list pystr) :
  forallb plain sep = true → Forall (λ x, forallb plain x = true) l →
  forallb plain (join sep l) = true.
Proof.
  intros Hsep Hl. induction Hl as [|x l Hx Hl IH]; [done|].
  destruct l as [|y l]; [done|].
  change (join sep (x :: y :: l)) with (x ++ sep ++ join sep (y :: l)).
  by rewrite !forallb_app, Hx, Hsep, IH.
Qed.

Lemma keyed_plain (k : string) (v : pystr) :
  forallb plain (str k) = true → forallb plain (keyed k v) = true.
Proof.
  intros Hk. unfold keyed. cbn [forallb].
  rewrite !forallb_app, Hk, encode_basestring_plain. reflexivity.
Qed.

(** With [ensure_ascii], the JSON text holds only newlines and printable
    ASCII characters, whatever code points the records hold. *)
Theorem dumps_is_plain_ascii (data : list entry) :
  forallb plain (dumps data) = true.
Proof.
  assert (∀ e, forallb plain (dump_entry e) = true) as He.
  { intros e. unfold dump_entry. rewrite forallb_app.
    change (forallb plain (str "{")) with true. cbn [andb forallb].
    change (plain NL) with true. cbn [andb].
    rewrite !forallb_app. rewrite join_plain; [reflexivity|reflexivity|].
    repeat constructor; by apply keyed_plain. }
  destruct data as [|e data]; [reflexivity|].
  unfold dumps. rewrite forallb_app.
  change (forallb plain (str "[")) with true. cbn [andb forallb].
  change (plain NL) with true. cbn [andb].
  rewrite !forallb_app. rewrite join_plain; [reflexivity|reflexivity|].
  apply Forall_forall. intros x Hx. apply list_elem_of_In in Hx.
  apply in_map_iff in Hx as (e' & <- & _). apply He.
Qed.

(** ** The header row *)

Lemma header_pattern_columns :
  header_pattern = flat_map column header_names ++ lits_i "|".
Proof.
  unfold header_pattern, header_names, column. cbn [flat_map].
  by rewrite <- !app_assoc.
Qed.

Lemma Lang_lits_i (n : string) p m :
  Lang (lits_i n ++ p) m
  ↔ ∃ t m', m = t ++ m' ∧ matches_i (str n) t = true ∧ Lang p m'.
Proof.
  unfold lits_i. generalize (str n) as l. intros l. revert m.
  induction l as [|a l IH]; intros m.
  - cbn [map app]. split.
    + intros H. by exists [], m.
    + intros (t & m' & -> & Ht & H). by destruct t.
  - cbn [map app]. split.
    + intros (c & m' & -> & Hc & H).
      apply IH in H as (t & m'' & -> & Ht & H).
      exists (c :: t), m''. split_and!; [done| |done].
      cbn [matches_i]. by rewrite Hc, Ht.
    + intros (t & m' & -> & Ht & H). destruct t as [|c t]; [done|].
      cbn [matches_i] in Ht. apply andb_prop in Ht as [Hc Ht].
      exists c, (t ++ m'). split_and!; [done..|].
      apply IH. by exists t, m'.
Qed.

Lemma matches_i_delimiter (t : pystr) :
  matches_i (str "|") t = true ↔ t = str "|".
Proof.
  split.
  - destruct t as [|c [|d t]]; [done| |].
    + cbn. rewrite andb_true_r. intros H. apply N.eqb_eq in H. by subst c.
    + cbn. by rewrite andb_false_r.
  - by intros ->.
Qed.

Lemma Lang_columns (ns : list string) p m :
  Lang (flat_map column ns ++ p) m
  ↔ ∃ cols m', Forall2 header_cell_ok ns cols
               ∧ m = flat_map header_cell_text cols ++ m' ∧ Lang p m'.
Proof.
  revert m. induction ns as [|n ns IH]; intros m.
  - cbn [flat_map app]. split.
    + intros H. exists [], m. by split_and!.
    + intros (cols & m' & Hc & -> & H). by inversion Hc.
  - cbn [flat_map]. unfold column at 1. rewrite <- !app_assoc.
    cbn [app]. split.
    + intros H.
      apply (proj1 (Lang_lits_i _ _ _)) in H as (t & m1 & -> & Ht & H).
      apply matches_i_delimiter in Ht as ->.
      apply (proj1 (Lang_cons_rep _ _ _ _ _)) in H as (l & m2 & -> & _ & Hl & H).
      apply (proj1 (Lang_lits_i _ _ _)) in H as (t & m3 & -> & Ht & H).
      apply (proj1 (Lang_cons_rep _ _ _ _ _)) in H as (r & m4 & -> & _ & Hr & H).
      apply IH in H as (cols & m' & Hc & -> & H).
      exists ({| space_before := l; written_name := t; space_after := r |} :: cols), m'.
      split_and!; [by constructor| |done].
      cbn [flat_map]. unfold header_cell_text.
      cbn [space_before written_name space_after]. by rewrite <- !app_assoc.
    + intros (cols & m' & Hc & -> & H).
      inversion Hc as [|n' c ns' cols' (Hl & Ht & Hr) Hc']; subst.
      cbn [flat_map].
      change (header_cell_text c)
        with (str "|" ++ space_before c ++ written_name c ++ space_after c).
      rewrite <- !app_assoc.
      apply (proj2 (Lang_lits_i _ _ _)). eexists _, _.
      split_and!; [reflexivity|reflexivity|].
      apply (proj2 (Lang_cons_rep _ _ _ _ _)). eexists _, _.
      split_and!; [reflexivity|lia|exact Hl|].
      apply (proj2 (Lang_lits_i _ _ _)). eexists _, _.
      split_and!; [reflexivity|exact Ht|].
      apply (proj2 (Lang_cons_rep _ _ _ _ _)). eexists _, _.
      split_and!; [reflexivity|lia|exact Hr|].
      apply IH. by exists cols', m'.
Qed.

(** The header pattern matches the header rows and nothing else. *)
Lemma Lang_header_pattern m : Lang header_pattern m ↔ header_row m.
Proof.
  rewrite header_pattern_columns, Lang_columns. unfold header_row, header_text.
  split.
  - intros (cols & m' & Hc & -> & H). exists cols. split; [done|].
    rewrite <- (app_nil_r (lits_i "|")) in H.
    apply (proj1 (Lang_lits_i _ _ _)) in H as (t & m'' & -> & Ht & ->).
    apply matches_i_delimiter in Ht as ->. by rewrite app_nil_r.
  - intros (cols & Hc & ->). exists cols, (str "|"). split_and!; [done..|].
    rewrite <- (app_nil_r (lits_i "|")).
    apply (proj2 (Lang_lits_i _ _ _)). exists (str "|"), [].
    by rewrite app_nil_r.
Qed.

Lemma parse_readme_no_header readme_path w content :
  files w !! readme_path = Some content →
  search header_pattern content = None →
  parse_readme readme_path w
  = Some ([], print "Error: Could not find the table header in README.md" w).
Proof. intros Hf Hs. unfold parse_readme. by rewrite Hf, Hs. Qed.

(** [parse_readme] reports a missing header exactly when the README
    holds no header row: seven cells with the seven names in order, in
    any letter case, with any white space (line breaks included) around
    the names, closed by the delimiter. *)
Theorem header_error_iff_no_header_row w content :
  files w !! "README.md" = Some content →
  (parse_readme "README.md" w
   = Some ([], print "Error: Could not find the table header in README.md" w))
  ↔ ¬ ∃ pre m post, content = pre ++ m ++ post ∧ header_row m.
Proof.
  intros Hf. split.
  - intros Hp (pre & m & post & -> & Hm).
    assert (occurs header_pattern (pre ++ m ++ post)) as Ho.
    { exists pre, m, post. split; [done|]. by apply Lang_header_pattern. }
    destruct (search header_pattern (pre ++ m ++ post))
      as [[[pre' ms] rest]|] eqn:Hs; [|by apply search_None in Hs].
    rewrite (parse_readme_found _ _ _ _ _ _ Hf Hs) in Hp.
    injection Hp as _ Hw. apply (f_equal stdout) in Hw. cbn [stdout print] in Hw.
    apply (f_equal length) in Hw. rewrite length_app in Hw. simpl in Hw. lia.
  - intros Hno. apply (parse_readme_no_header _ _ content); [done|].
    apply search_None. intros (pre & m & post & -> & Hm).
    apply Hno. exists pre, m, post. split; [done|]. by apply Lang_header_pattern.
Qed.

(** ** The cells of a row *)

Lemma lstrip_suffix (s : pystr) : ∃ a, s = a ++ lstrip s.
Proof.
  induction s as [|c s [a IH]]; [by exists []|]. cbn [lstrip].
  destruct (isspace c); [|by exists []].
  exists (c :: a). cbn [app]. by rewrite <- IH.
Qed.

Lemma lstrip_head (s : pystr) :
  match lstrip s with c :: _ => isspace c = false | [] => True end.
Proof.
  induction s as [|c s IH]; [done|]. cbn [lstrip].
  by destruct (isspace c) eqn:E.
Qed.

Lemma lstrip_id (s : pystr) :
  match s with c :: _ => isspace c = false | [] => True end → lstrip s = s.
Proof. destruct s as [|c s]; [done|]. cbn [lstrip]. by intros ->. Qed.

Lemma rstrip_prefix (s : pystr) : ∃ b, s = rstrip s ++ b.
Proof.
  unfold rstrip. destruct (lstrip_suffix (rev s)) as [a E].
  exists (rev a). rewrite <- rev_app_distr, <- E. by rewrite rev_involutive.
Qed.

Lemma rstrip_rstrip (s : pystr) : rstrip (rstrip s) = rstrip s.
Proof.
  unfold rstrip. rewrite rev_involutive.
  by rewrite (lstrip_id _ (lstrip_head (rev s))).
Qed.

(** [strip] twice is [strip] once. *)
Lemma strip_strip (s : pystr) : strip (strip s) = strip s.
Proof.
  unfold strip. rewrite (lstrip_id (rstrip (lstrip s))).
  - apply rstrip_rstrip.
  - pose proof (lstrip_head s) as Hh.
    destruct (rstrip_prefix (lstrip s)) as [b E].
    destruct (rstrip (lstrip s)) as [|c r]; [done|].
    rewrite E in Hh. exact Hh.
Qed.

Lemma forallb_rev (f : char → bool) (l : pystr) : forallb f (rev l) = forallb f l.
Proof.
  induction l as [|c l IH]; [done|].
  cbn [rev forallb]. rewrite forallb_app, IH. cbn [forallb].
  rewrite andb_true_r. apply andb_comm.
Qed.

Lemma forallb_lstrip (f : char → bool) (s : pystr) :
  forallb f s = true → forallb f (lstrip s) = true.
Proof.
  destruct (lstrip_suffix s) as [a E]. intros H. rewrite E in H.
  rewrite forallb_app in H. by apply andb_prop in H as [_ H].
Qed.

(** [strip] keeps a property that all characters have. *)
Lemma forallb_strip (f : char → bool) (s : pystr) :
  forallb f s = true → forallb f (strip s) = true.
Proof.
  intros H. unfold strip, rstrip. rewrite forallb_rev.
  apply forallb_lstrip. rewrite forallb_rev. by apply forallb_lstrip.
Qed.

(** The pieces of [split] hold no separator. *)
Lemma split_pieces (sep : char) (s : pystr) :
  Forall (λ piece, forallb (λ c, negb (c =? sep)%N) piece = true) (split sep s).
Proof.
  induction s as [|c s IH]; [by repeat constructor|].
  cbn [split]. destruct (c =? sep)%N eqn:E.
  - by constructor.
  - destruct (split sep s) as [|piece pieces]; [by repeat constructor; cbn; rewrite E|].
    inversion IH as [|? ? Hp Hps]; subst. constructor; [|done].
    cbn [forallb]. by rewrite E, Hp.
Qed.

Lemma cells_clean (line : pystr) : Forall clean (cells line).
Proof.
  unfold cells. cbv zeta. apply Forall_map.
  eapply Forall_impl; [apply split_pieces|].
  intros piece Hp. split; [apply strip_strip|by apply forallb_strip].
Qed.

(** The fields that are taken as they are ([time], [venue], [remark],
    [bib]) never hold the delimiter and never begin or end with white
    space, whatever the line. *)
Theorem raw_fields_are_clean (line : pystr) :
  let e := entry_of (cells line) in
  clean (time e) ∧ clean (venue e) ∧ clean (remark e) ∧ clean (bib e).
Proof.
  assert (∀ i, clean (cell (cells line) i)) as Hcell.
  { intros i. unfold cell. destruct (cells line !! i) as [c|] eqn:E.
    - cbn [default]. pose proof (cells_clean line) as Hall.
      rewrite Forall_forall in Hall. apply Hall.
      by eapply list_elem_of_lookup_2.
    - by split. }
  cbv zeta. cbn [entry_of time venue remark bib]. split_and!; try apply Hcell.
  destruct (6 <? length (cells line)); [apply Hcell|by split].
Qed.

(** ** Records that can be injected again *)

Lemma hex_digit_no_semicolon (n : N) :
  (n < 16)%N → not_semicolon (hex_digit n) = true.
Proof.
  intros Hn. unfold not_semicolon, hex_digit. apply negb_true_iff, N.eqb_neq.
  destruct (n <? 10)%N eqn:E; [apply N.ltb_lt in E|apply N.ltb_ge in E]; lia.
Qed.

Lemma u_escape_no_semicolon (n : N) : forallb not_semicolon (u_escape n) = true.
Proof.
  unfold u_escape, hex4. cbn [forallb].
  rewrite !hex_digit_no_semicolon by (apply N.mod_lt; lia). reflexivity.
Qed.

Lemma encode_char_no_semicolon (c : char) :
  not_semicolon c = true → forallb not_semicolon (encode_char c) = true.
Proof.
  intros Hc. unfold encode_char.
  repeat match goal with
         | |- context [if (c =? ?k)%N then _ else _] =>
             destruct (c =? k)%N; [reflexivity|]
         end.
  destruct ((32 <=? c) && (c <=? 126))%N.
  - cbn [forallb]. by rewrite Hc.
  - destruct (c <? 65536)%N; [apply u_escape_no_semicolon|].
    cbv zeta. by rewrite forallb_app, !u_escape_no_semicolon.
Qed.

Lemma encode_no_semicolon (s : pystr) :
  forallb not_semicolon s = true →
  forallb not_semicolon (encode_basestring_ascii s) = true.
Proof.
  intros Hs. unfold encode_basestring_ascii. cbn [forallb].
  rewrite forallb_app. cbn [forallb].
  change (not_semicolon DQ) with true. rewrite andb_true_r. cbn [andb].
  induction s as [|c s IH]; [done|].
  cbn [flat_map forallb] in *. apply andb_prop in Hs as [Hc Hs].
  by rewrite forallb_app, (encode_char_no_semicolon c Hc), (IH Hs).
Qed.

Lemma join_no_semicolon (sep : pystr) (l : list pystr) :
  forallb not_semicolon sep = true →
  Forall (λ x, forallb not_semicolon x = true) l →
  forallb not_semicolon (join sep l) = true.
Proof.
  intros Hsep Hl. induction Hl as [|x l Hx Hl IH]; [done|].
  destruct l as [|y l]; [done|].
  change (join sep (x :: y :: l)) with (x ++ sep ++ join sep (y :: l)).
  by rewrite !forallb_app, Hx, Hsep, IH.
Qed.

Lemma keyed_no_semicolon (k : string) (v : pystr) :
  forallb not_semicolon (str k) = true → forallb not_semicolon v = true →
  forallb not_semicolon (keyed k v) = true.
Proof.
  intros Hk Hv. unfold keyed. cbn [forallb].
  rewrite !forallb_app, Hk, (encode_no_semicolon v Hv). reflexivity.
Qed.

Lemma no_semicolon_no_close (s : pystr) :
  forallb not_semicolon s = true → contains (str "];") s = false.
Proof.
  intros H. apply contains_false. intros a b ->.
  rewrite forallb_app in H. apply andb_prop in H as [_ H].
  destruct b as [|x [|y b]]; [done| |].
  - cbn. by rewrite andb_false_r.
  - cbn [forallb] in H. apply andb_prop in H as [_ H].
    apply andb_prop in H as [Hy _]. unfold not_semicolon in Hy.
    apply negb_true_iff in Hy.
    change (str "];") with [93%N; 59%N]. cbn [app startswith].
    rewrite (N.eqb_sym 59 y), Hy. cbn [andb]. apply andb_false_r.
Qed.

(** When no field of any record holds a semicolon, the serialized JSON
    holds none, and so it holds no ["];"]: such records can be injected
    again without change. *)
Theorem json_without_semicolon (data : list entry) :
  Forall entry_no_semicolon data →
  no_semicolon (dumps data) = true ∧ contains (str "];") (dumps data) = false.
Proof.
  intros Hall. unfold no_semicolon.
  assert (forallb not_semicolon (dumps data) = true) as H;
    [|split; [done|by apply no_semicolon_no_close]].
  assert (∀ e, entry_no_semicolon e →
               forallb not_semicolon (dump_entry e) = true) as He.
  { intros e (H1 & H2 & H3 & H4 & H5 & H6 & H7). unfold dump_entry.
    rewrite forallb_app.
    change (forallb not_semicolon (str "{")) with true. cbn [andb forallb].
    change (not_semicolon NL) with true. cbn [andb].
    rewrite !forallb_app. rewrite join_no_semicolon; [reflexivity|reflexivity|].
    repeat constructor; by apply keyed_no_semicolon. }
  destruct data as [|e data]; [reflexivity|].
  unfold dumps. rewrite forallb_app.
  change (forallb not_semicolon (str "[")) with true. cbn [andb forallb].
  change (not_semicolon NL) with true. cbn [andb].
  rewrite !forallb_app. rewrite join_no_semicolon; [reflexivity|reflexivity|].
  apply Forall_map. eapply Forall_impl; [exact Hall|]. exact He.
Qed.

(** ** Instances of the further properties *)

Lemma parse_readme_only_reads_witness :
  files short_row_world = files short_row_world
  ∧ (stdout short_row_world = stdout short_row_world
     ∨ flat_map row_entries (data_lines short_row_rest) = []
       ∧ ∃ line, stdout short_row_world = stdout short_row_world ++ [line]).
Proof.
  apply (parse_readme_only_reads "README.md" short_row_world
           (flat_map row_entries (data_lines short_row_rest)) short_row_world).
  check.
Defined.

Lemma update_writes_only_html_path_witness :
  ∃ line,
    stdout (print (success "index.html" [plain_entry])
              (write "index.html"
                 (sub_from data_pattern (data_template [plain_entry]) 0 sample_html)
                 sample_world))
    = stdout sample_world ++ [line]
    ∧ (files (print (success "index.html" [plain_entry])
                (write "index.html"
                   (sub_from data_pattern (data_template [plain_entry]) 0
                      sample_html)
                   sample_world))
       = files sample_world
       ∨ ∃ html, files sample_world !! "index.html" = Some html
                 ∧ has_statement html
                 ∧ line = success "index.html" [plain_entry]
                 ∧ files (print (success "index.html" [plain_entry])
                            (write "index.html"
                               (sub_from data_pattern
                                  (data_template [plain_entry]) 0 sample_html)
                               sample_world))
                   = <["index.html" :=
                         sub_from data_pattern (data_template [plain_entry]) 0 html]>
                       (files sample_world)).
Proof.
  apply (update_writes_only_html_path [plain_entry] "index.html" sample_world).
  check.
Defined.

Lemma main_touches_only_index_html_witness :
  (∀ q, q ≠ "index.html" → files full_world_after !! q = files full_world !! q)
  ∧ (stdout full_world_after = stdout full_world
     ∨ ∃ line, stdout full_world_after = stdout full_world ++ [line])
  ∧ (files full_world !! "index.html" = None
     → files full_world_after = files full_world).
Proof.
  apply (main_touches_only_index_html full_world full_world_after). check.
Defined.

Lemma main_without_readme_witness :
  main sample_world = Some (print "Error: README.md not found." sample_world).
Proof. apply (main_without_readme sample_world). check. Defined.

Lemma main_without_rows_witness : main no_rows_world = Some no_rows_world.
Proof.
  apply (main_without_rows no_rows_world no_rows_readme [] [] no_rows_rest);
    [check|check|].
  repeat constructor; first [by left; vm_compute | by right; vm_compute; lia].
Defined.

Lemma main_without_html_witness :
  main short_row_world
  = Some (print "Error: index.html not found." short_row_world).
Proof.
  apply (main_without_html short_row_world short_row_readme [] short_row_marks
           short_row_rest); [check|check| |check].
  vm_compute. discriminate.
Defined.

Lemma main_injects_all_records_witness :
  let data := flat_map row_entries (data_lines short_row_rest) in
  main full_world
  = Some (print (success "index.html" data)
            (write "index.html"
               (document (new_text (dumps data)) two_statements
                  (NL :: str "</script>"))
               full_world)).
Proof.
  apply (main_injects_all_records full_world short_row_readme [] short_row_marks
           short_row_rest two_statements (NL :: str "</script>")).
  - check.
  - check.
  - vm_compute. discriminate.
  - check.
  - unfold two_statements. check_scan.
  - discriminate.
Defined.

Lemma first_line_with_dashes_is_skipped_witness :
  parse_readme "README.md" dashes_world
  = Some (flat_map row_entries
            (if is_row (str "| 2023 | A | P0 | Q0 | M0 | pre---print | B0 |")
                && contains (str "---")
                     (str "| 2023 | A | P0 | Q0 | M0 | pre---print | B0 |")
             then [str "| 2024 | B | P1 | Q1 | M1 | R1 | B1 |"]
             else [str "| 2023 | A | P0 | Q0 | M0 | pre---print | B0 |";
                   str "| 2024 | B | P1 | Q1 | M1 | R1 | B1 |"]),
          dashes_world).
Proof.
  apply (first_line_with_dashes_is_skipped "README.md" dashes_world
           dashes_readme [] [] dashes_rest); check.
Defined.

Lemma cell_without_link_is_kept_witness :
  linkify (str "[1] and (2)") = str "[1] and (2)".
Proof. apply (cell_without_link_is_kept (str "[1] and (2)")). check. Defined.

Lemma cell_without_bold_is_kept_witness :
  embolden (str "a * b *c*") = str "a * b *c*".
Proof. apply (cell_without_bold_is_kept (str "a * b *c*")). check. Defined.

Lemma update_every_document_witness :
  ∃ segs tail,
    sample_html = document old_text segs tail
    ∧ scanned segs tail
    ∧ update_index_html [plain_entry] "index.html" sample_world
      = Some (match segs with
              | [] => print "Error: Could not find 'const data = [...]' in index.html"
                        sample_world
              | _ :: _ =>
                  print (success "index.html" [plain_entry])
                    (write "index.html"
                       (document (new_text (dumps [plain_entry])) segs tail)
                       sample_world)
              end).
Proof.
  apply (update_every_document [plain_entry] "index.html" sample_world sample_html).
  check.
Defined.

Lemma header_error_iff_no_header_row_witness :
  (parse_readme "README.md" headless_world
   = Some ([], print "Error: Could not find the table header in README.md"
                 headless_world))
  ↔ ¬ ∃ pre m post,
        text ["# Papers"; "| Time | Venue | Paper |"; "| a | b | c |"]
        = pre ++ m ++ post ∧ header_row m.
Proof.
  apply (header_error_iff_no_header_row headless_world
           (text ["# Papers"; "| Time | Venue | Paper |"; "| a | b | c |"])).
  check.
Defined.

Lemma json_without_semicolon_witness :
  no_semicolon (dumps [plain_entry]) = true
  ∧ contains (str "];") (dumps [plain_entry]) = false.
Proof.
  apply (json_without_semicolon [plain_entry]).
  repeat constructor; check.
Defined.
